(** * The authenticated HTTP client of the dashboard frontend

    A shallow embedding of [frontend/src/lib/api.ts]: the axios instance
    [api], its request interceptor (bearer token attachment), its response
    interceptor (one-shot token refresh and replay) and the [authApi.refresh]
    helper, together with the properties the specification states about
    them.

    Everything axios itself does is kept to what the interceptors can
    observe: a dispatch merges the given config with the instance defaults
    into a fresh config object, runs the request interceptor on it, hands the
    request to the transport and settles the promise by the default
    [validateStatus] (2xx resolves, anything else rejects with an error that
    carries the config object and the response).  What goes to the transport
    is what the adapter makes of the config: the full URL ([buildFullPath])
    and the headers with one [Authorization] among them.  The server is a
    parameter.
    One request is followed from dispatch to settlement; interleavings with
    other requests in flight are not part of the model.

    Around the client: the callers of its helpers that do more than render
    (the [checkAuth] effect of the dashboard layout, the error message of
    the registration page, [handleDeploy] of the onboarding page), the
    workspace store, and the lists of choices of the preferences and
    onboarding pages. *)

From Stdlib Require Import Ascii.
From stdpp Require Import gmap strings list fin_maps.

(** ** JavaScript values that reach the token slots *)

(** A token slot of the store, and a field of a JSON body, holds
    [undefined], [null] or a string. *)
Inductive jsval :=
  | Undefined
  | Null
  | Str (s : string).

#[global] Instance jsval_eq_dec : EqDecision jsval.
Proof. solve_decision. Defined.

(** [if (v)] / [!v]: only a non-empty string is truthy. *)
Definition truthy (v : jsval) : bool :=
  match v with
  | Str s => bool_decide (s ≠ "")
  | _ => false
  end.

(** [`${v}`] inside a template literal. *)
Definition to_string (v : jsval) : string :=
  match v with
  | Undefined => "undefined"
  | Null => "null"
  | Str s => s
  end.

(** [`Bearer ${v}`] *)
Definition bearer (v : jsval) : string := "Bearer " +:+ to_string v.

(** A request or response body: absent ([undefined]/[null]), text, or a JSON
    object. *)
Inductive payload :=
  | NoBody
  | Text (s : string)
  | Object (fields : gmap string jsval).

(** [o.k] on a JSON object: a missing property reads as [undefined]. *)
Definition prop (k : string) (o : gmap string jsval) : jsval :=
  default Undefined (o !! k).

(** [const { access } = d]: destructuring [undefined] or [null] throws, a
    string has no such property. *)
Definition destructure_access (d : payload) : option jsval :=
  match d with
  | NoBody => None
  | Text _ => Some Undefined
  | Object o => Some (prop "access" o)
  end.

(** ** Requests, responses, errors *)

(** [InternalAxiosRequestConfig & { _retry?: boolean }]; an absent [_retry]
    is [false], which is all that [!originalRequest._retry] can tell. *)
Record Config := {
  method : string;
  baseURL : option string;
  url : string;
  headers : gmap string string;
  data : payload;
  _retry : bool
}.

(** What goes on the wire. *)
Record Wire := {
  w_method : string;
  w_url : string;
  w_headers : gmap string string;
  w_data : payload
}.

(** [response.status] and [response.data]. *)
Record Response := {
  status : nat;
  body : payload
}.

(** Request config objects live on a heap; an error refers to its config by
    address, so that the [_retry] flag written by the interceptor is seen by
    whoever holds the same object. *)
Definition ref := nat.

(** [AxiosError]: [config] and [response] are both optional. *)
Record AxiosError := {
  config : option ref;
  response : option Response
}.

(** Whatever a promise can reject with here. *)
Inductive thrown :=
  | EAxios (e : AxiosError)
  | EError (message : string)
  | ETypeError (message : string).

Inductive settled :=
  | Resolved (r : Response)
  | Rejected (e : thrown).

(** ** Session state *)

Record AuthState := {
  accessToken : jsval;
  refreshToken : jsval
}.

(** Modelled from the spec: the store module [@/stores/auth] is not part of
    the sources.  The session credentials are an access token and a refresh
    token; [setTokens] replaces them. *)
Definition setTokens (access refresh : jsval) (s : AuthState) : AuthState :=
  {| accessToken := access; refreshToken := refresh |}.

(** Modelled from the spec: the store module [@/stores/auth] is not part of
    the sources.  [logout] clears all session credentials. *)
Definition logout (s : AuthState) : AuthState :=
  {| accessToken := Null; refreshToken := Null |}.

(** ** The world a request runs in *)

(** [axios] is the bare library, [api] the instance with interceptors. *)
Inductive Channel := Bare | Client.

(** Effects visible outside the client: a request put on the wire, and an
    assignment to [window.location.href]. *)
Inductive Event :=
  | Sent (via : Channel) (req : Wire)
  | Navigate (href : string).

Record World {Srv : Type} := {
  auth : AuthState;
  heap : list Config;
  server : Srv;
  log : list Event
}.
Arguments World : clear implicits.

Definition with_auth {Srv} (f : AuthState → AuthState) (w : World Srv) : World Srv :=
  {| auth := f (auth w); heap := heap w; server := server w; log := log w |}.

Definition with_heap {Srv} (f : list Config → list Config) (w : World Srv) : World Srv :=
  {| auth := auth w; heap := f (heap w); server := server w; log := log w |}.

Definition emit {Srv} (ev : Event) (w : World Srv) : World Srv :=
  {| auth := auth w; heap := heap w; server := server w; log := log w ++ [ev] |}.

(** [o.headers[k] = v] *)
Definition set_header (k v : string) (c : Config) : Config :=
  {| method := method c; baseURL := baseURL c; url := url c;
     headers := <[k := v]> (headers c); data := data c; _retry := _retry c |}.

(** [o._retry = true] *)
Definition set_retry (c : Config) : Config :=
  {| method := method c; baseURL := baseURL c; url := url c;
     headers := headers c; data := data c; _retry := true |}.

(** A new object: its address is the next free one. *)
Definition alloc {Srv} (c : Config) (w : World Srv) : ref * World Srv :=
  (length (heap w), with_heap (λ h, h ++ [c]) w).

(** The object at [r] after an assignment to one of its fields. *)
Definition store {Srv} (r : ref) (c : Config) (w : World Srv) : World Srv :=
  with_heap (λ h, <[r := c]> h) w.

(** ** What the adapter puts on the wire *)

(** [a.toLowerCase()] of a character of a header name or a scheme. *)
Definition lower_char (a : Ascii.ascii) : Ascii.ascii :=
  let n := Ascii.N_of_ascii a in
  if ((65 <=? n) && (n <=? 90))%N then Ascii.ascii_of_N (n + 32) else a.

Fixpoint lower (s : string) : string :=
  match s with
  | EmptyString => EmptyString
  | String a s => String (lower_char a) (lower s)
  end.

(** Header names are compared without regard to case: a property named
    [k] is the [Authorization] header, however [k] is spelled. *)
Definition names_authorization (k : string) : bool :=
  bool_decide (lower k = "authorization").

(** The value of the [Authorization] header of a headers object that may
    spell the name more than once.  At the adapter [AxiosHeaders.normalize]
    leaves one property a name, with the value written last.  The request
    interceptor and the handler write the property [Authorization]; when they
    have written it, it is the one written last and its value goes out.
    Between the spellings of an object they have not written to, the order of
    the properties decides, which a map does not keep: there the model takes
    [Authorization] if it is a property, and one of the others if not. *)
Definition authorization_of (h : gmap string string) : option string :=
  match h !! "Authorization" with
  | Some v => Some v
  | None =>
      snd <$> head (map_to_list (filter (λ kv, names_authorization kv.1 = true) h))
  end.

(** The headers as they go out: one [Authorization] header at most; the
    other headers as they are.  HTTP does not tell the spellings of a header
    name apart, and the library sends the header under the spelling it met
    first: on the wire of the model it is always named [Authorization].  The
    other names are taken as they are spelled: the callers of this client
    spell each of them one way ([Content-Type]). *)
Definition normalize (h : gmap string string) : gmap string string :=
  let others := filter (λ kv, names_authorization kv.1 = false) h in
  match authorization_of h with
  | Some v => <["Authorization" := v]> others
  | None => others
  end.

Definition is_letter (a : Ascii.ascii) : bool :=
  let n := Ascii.N_of_ascii (lower_char a) in ((97 <=? n) && (n <=? 122))%N.

Definition is_digit (a : Ascii.ascii) : bool :=
  let n := Ascii.N_of_ascii a in ((48 <=? n) && (n <=? 57))%N.

(** [[a-z\d+\-.]] *)
Definition is_scheme_char (a : Ascii.ascii) : bool :=
  is_letter a || is_digit a
  || bool_decide (a = "+"%char) || bool_decide (a = "-"%char)
  || bool_decide (a = "."%char).

(** [[a-z\d+\-.]*:\/\/] at the start of [s] *)
Fixpoint scheme_then_slashes (s : string) : bool :=
  match s with
  | EmptyString => false
  | String a rest =>
      if bool_decide (a = ":"%char) then String.prefix "//" rest
      else is_scheme_char a && scheme_then_slashes rest
  end.

(** [isAbsoluteURL]: [/^([a-z][a-z\d+\-.]*:)?\/\//i] *)
Definition isAbsoluteURL (url : string) : bool :=
  String.prefix "//" url
  || match url with
     | String a rest => is_letter a && scheme_then_slashes rest
     | EmptyString => false
     end.

(** [s.replace(/^\/+/, '')] *)
Fixpoint strip_leading_slashes (s : string) : string :=
  match s with
  | String a rest =>
      if bool_decide (a = "/"%char) then strip_leading_slashes rest else s
  | EmptyString => EmptyString
  end.

(** [s] without the slash at its end, if it has one. *)
Fixpoint drop_last_slash (s : string) : string :=
  match s with
  | EmptyString => EmptyString
  | String a rest =>
      match rest with
      | EmptyString => if bool_decide (a = "/"%char) then EmptyString else s
      | _ => String a (drop_last_slash rest)
      end
  end.

(** [s.replace(/\/?\/$/, '')]: one slash or two off the end. *)
Definition strip_trailing_slashes (s : string) : string :=
  if bool_decide (drop_last_slash s = s) then s
  else drop_last_slash (drop_last_slash s).

(** [combineURLs] *)
Definition combineURLs (baseURL relativeURL : string) : string :=
  if bool_decide (relativeURL = "") then baseURL
  else strip_trailing_slashes baseURL +:+ "/" +:+ strip_leading_slashes relativeURL.

(** [buildFullPath]: an absolute [url] is left alone, with or without a
    [baseURL]; so is any [url] when there is no [baseURL]. *)
Definition buildFullPath (baseURL : option string) (requestedURL : string) : string :=
  match baseURL with
  | Some b =>
      if bool_decide (b ≠ "") && negb (isAbsoluteURL requestedURL)
      then combineURLs b requestedURL
      else requestedURL
  | None => requestedURL
  end.

Arguments normalize : simpl never.
Arguments buildFullPath : simpl never.

(** What goes out for a config. *)
Definition wire (c : Config) : Wire :=
  {| w_method := method c;
     w_url := buildFullPath (baseURL c) (url c);
     w_headers := normalize (headers c);
     w_data := data c |}.

(** Headers every JSON request gets from the library defaults and from
    [axios.create({ headers: { 'Content-Type': 'application/json' } })]. *)
Definition default_headers : gmap string string :=
  {[ "Content-Type" := "application/json" ]}.

(** Default [validateStatus]. *)
Definition ok_status (s : nat) : bool := (200 <=? s) && (s <? 300).

(** The promise of a dispatch whose config object is [r]. *)
Definition settle (r : ref) (res : option Response) : settled :=
  match res with
  | None => Rejected (EAxios {| config := Some r; response := None |})
  | Some resp =>
      if ok_status (status resp) then Resolved resp
      else Rejected (EAxios {| config := Some r; response := Some resp |})
  end.

(** [error.response?.status === 401]; a thrown value that is no axios error
    has no [response]. *)
Definition is_401 (error : thrown) : bool :=
  match error with
  | EAxios e =>
      match response e with
      | Some resp => status resp =? 401
      | None => false
      end
  | _ => false
  end.

(** [error.config], as an address. *)
Definition config_of (error : thrown) : option ref :=
  match error with
  | EAxios e => config e
  | _ => None
  end.

(** ** The request interceptor (api.ts, lines 14-23) *)

Definition onRequest (s : AuthState) (cfg : Config) : Config :=
  let token := accessToken s in
  if truthy token then set_header "Authorization" (bearer token) cfg
  else cfg.

(** The config object behind [axios.post(target, d)] and [api.post(target, d)]. *)
Definition post_config (target : string) (d : payload) (h : gmap string string) : Config :=
  {| method := "post"; baseURL := None; url := target;
     headers := h; data := d; _retry := false |}.

(** Requests of the bare library on the wire. *)
Definition is_bare (ev : Event) : bool :=
  match ev with
  | Sent Bare _ => true
  | _ => false
  end.

Definition bare_calls (evs : list Event) : nat :=
  length (filter (λ ev, is_bare ev = true) evs).

(** How many headers of a request are named [k]. *)
Definition header_count (k : string) (h : gmap string string) : nat :=
  length (filter (λ kv, kv.1 = k) (map_to_list h)).

(** The handler meets [error] for the first time: a 401 whose request object
    [r], with fields [c], is not yet marked. *)
Definition first_401 {Srv} (error : thrown) (w : World Srv) (r : ref) (c : Config) : Prop :=
  is_401 error = true ∧ config_of error = Some r ∧
  heap w !! r = Some c ∧ _retry c = false.

(** ** Two backends to run the client against *)

Definition localhost : string := "http://localhost:8000".

(** A scripted backend answers the requests it gets with the replies it was
    given, in order, whatever the request; once they are used up the network
    is down. *)
Definition scripted (s : list (option Response)) (req : Wire)
  : list (option Response) * option Response :=
  match s with
  | [] => ([], None)
  | reply :: s => (s, reply)
  end.

(** A backend with one valid access token and one valid refresh token: the
    refresh endpoint hands out the access token for the refresh token, every
    other path wants the access token as a bearer. *)
Definition backend (valid_access valid_refresh : string) (_ : unit) (req : Wire)
  : unit * option Response :=
  (tt,
   Some (if bool_decide (w_url req = localhost +:+ "/api/auth/refresh/") then
           match w_data req with
           | Object o =>
               if bool_decide (o !! "refresh" = Some (Str valid_refresh))
               then {| status := 200; body := Object {[ "access" := Str valid_access ]} |}
               else {| status := 401; body := NoBody |}
           | _ => {| status := 400; body := NoBody |}
           end
         else if bool_decide (w_headers req !! "Authorization"
                              = Some ("Bearer " +:+ valid_access))
         then {| status := 200; body := Text "ok" |}
         else {| status := 401; body := NoBody |})).

Definition get_me : Config :=
  {| method := "get"; baseURL := None; url := "/auth/me/"; headers := ∅;
     data := NoBody; _retry := false |}.

Definition fresh_world {Srv} (a r : jsval) (srv : Srv) : World Srv :=
  {| auth := {| accessToken := a; refreshToken := r |}; heap := [];
     server := srv; log := [] |}.

(** A backend whose every answer is 401. *)
Definition rejecting (_ : unit) (req : Wire) : unit * option Response :=
  (tt, Some {| status := 401; body := NoBody |}).

(** [GET /auth/me/] as the client has sent it, the 401 it got back, and the
    world at that moment. *)
Definition sent_get_me : Config :=
  {| method := "get"; baseURL := Some (localhost +:+ "/api"); url := "/auth/me/";
     headers := {[ "Content-Type" := "application/json";
                   "Authorization" := "Bearer stale" ]};
     data := NoBody; _retry := false |}.

Definition unauthorized : thrown :=
  EAxios {| config := Some 0;
            response := Some {| status := 401; body := NoBody |} |}.

Definition in_flight {Srv} (a r : jsval) (srv : Srv) : World Srv :=
  {| auth := {| accessToken := a; refreshToken := r |};
     heap := [sent_get_me];
     server := srv;
     log := [Sent Client (wire sent_get_me)] |}.

(** ** The registration page: the message of a failed registration

    The [catch] block of [onSubmit] turns the body of the error response
    into the description of a toast. *)
Module RegisterPage.

(** A field of the error body: missing, a string, or an array of strings. *)
Inductive errfield :=
  | NoField
  | One (s : string)
  | Many (l : list string).

(** [if (f)]: a missing field and the empty string are falsy, an array is
    truthy even when it is empty. *)
Definition given (f : errfield) : bool :=
  match f with
  | NoField => false
  | One s => bool_decide (s ≠ "")
  | Many _ => true
  end.

(** [Array.isArray(f) ? f[0] : f]; [[][0]] is [undefined]. *)
Definition first_of (f : errfield) : errfield :=
  match f with
  | Many [] => NoField
  | Many (s :: _) => One s
  | _ => f
  end.

(** [l.join(', ')] *)
Fixpoint join_with (sep : string) (l : list string) : string :=
  match l with
  | [] => ""
  | [s] => s
  | s :: l => s +:+ sep +:+ join_with sep l
  end.

(** [Array.isArray(f) ? f.join(', ') : f] *)
Definition joined (f : errfield) : errfield :=
  match f with
  | Many l => One (join_with ", " l)
  | _ => f
  end.

(** The fields of the body the page looks at. *)
Record ErrorBody := {
  email : errfield;
  password : errfield;
  password_confirm : errfield;
  detail : errfield;
  non_field_errors : errfield
}.

Definition fallback : errfield := One "Registration failed".

(** Lines 52-69 of [onSubmit]; [data] is [error.response?.data], [None] when
    it is falsy.  The result is the toast's description, [NoField] for
    [undefined]. *)
Definition errorMessage (data : option ErrorBody) : errfield :=
  match data with
  | None => fallback
  | Some data =>
      if given (email data) then first_of (email data)
      else if given (password data) then joined (password data)
      else if given (password_confirm data) then first_of (password_confirm data)
      else if given (detail data) then detail data
      else if given (non_field_errors data) then first_of (non_field_errors data)
      else fallback
  end.

(** The fields in the order the page consults them. *)
Definition consulted (data : ErrorBody) : list errfield :=
  [email data; password data; password_confirm data; detail data;
   non_field_errors data].

(** A field of a body of the client's model, which has no arrays. *)
Definition errfield_of (v : jsval) : errfield :=
  match v with
  | Str s => One s
  | _ => NoField
  end.

(** [error.response?.data] of whatever the client rejected with, as the page
    reads it: falsy when there is no response, no body, or an empty text; a
    text has none of the fields. *)
Definition response_data (error : thrown) : option ErrorBody :=
  match error with
  | EAxios {| response := Some {| body := Object o |} |} =>
      Some {| email := errfield_of (prop "email" o);
              password := errfield_of (prop "password" o);
              password_confirm := errfield_of (prop "password_confirm" o);
              detail := errfield_of (prop "detail" o);
              non_field_errors := errfield_of (prop "non_field_errors" o) |}
  | EAxios {| response := Some {| body := Text s |} |} =>
      if bool_decide (s = "") then None
      else Some {| email := NoField; password := NoField;
                   password_confirm := NoField; detail := NoField;
                   non_field_errors := NoField |}
  | _ => None
  end.

End RegisterPage.

(** ** The workspace store *)
Module WorkspaceStore.

(** A workspace: its [id], and its other fields by name.  [V] is what a
    field can hold. *)
Record Workspace {V : Type} := {
  id : Z;
  fields : gmap string V
}.
Arguments Workspace : clear implicits.

(** [Partial<Workspace>]: the fields to overwrite, [id] among them or not. *)
Record Updates {V : Type} := {
  new_id : option Z;
  new_fields : gmap string V
}.
Arguments Updates : clear implicits.

(** [{ ...w, ...updates }] *)
Definition merge {V} (w : Workspace V) (updates : Updates V) : Workspace V :=
  {| id := default (id w) (new_id updates);
     fields := new_fields updates ∪ fields w |}.

Record WorkspaceState {V : Type} := {
  workspaces : list (Workspace V);
  currentWorkspace : option (Workspace V);
  isLoading : bool;
  error : option string
}.
Arguments WorkspaceState : clear implicits.

Definition initial {V} : WorkspaceState V :=
  {| workspaces := []; currentWorkspace := None; isLoading := false;
     error := None |}.

Definition setWorkspaces {V} (ws : list (Workspace V)) (state : WorkspaceState V)
  : WorkspaceState V :=
  {| workspaces := ws; currentWorkspace := currentWorkspace state;
     isLoading := isLoading state; error := error state |}.

Definition addWorkspace {V} (workspace : Workspace V) (state : WorkspaceState V)
  : WorkspaceState V :=
  {| workspaces := workspaces state ++ [workspace];
     currentWorkspace := currentWorkspace state;
     isLoading := isLoading state; error := error state |}.

Definition updateWorkspace {V} (i : Z) (updates : Updates V)
    (state : WorkspaceState V) : WorkspaceState V :=
  {| workspaces :=
       (λ w, if bool_decide (id w = i) then merge w updates else w)
         <$> workspaces state;
     currentWorkspace :=
       match currentWorkspace state with
       | Some c => if bool_decide (id c = i) then Some (merge c updates) else Some c
       | None => None
       end;
     isLoading := isLoading state; error := error state |}.

Definition removeWorkspace {V} (i : Z) (state : WorkspaceState V)
  : WorkspaceState V :=
  {| workspaces := filter (λ w, id w ≠ i) (workspaces state);
     currentWorkspace :=
       match currentWorkspace state with
       | Some c => if bool_decide (id c = i) then None else Some c
       | None => None
       end;
     isLoading := isLoading state; error := error state |}.

Definition setCurrentWorkspace {V} (workspace : option (Workspace V))
    (state : WorkspaceState V) : WorkspaceState V :=
  {| workspaces := workspaces state; currentWorkspace := workspace;
     isLoading := isLoading state; error := error state |}.

(** The current workspace, when there is one, is one of the list. *)
Definition listed {V} (state : WorkspaceState V) : Prop :=
  ∀ c, currentWorkspace state = Some c → c ∈ workspaces state.

(** Two updates in a row as one: the later one wins field by field. *)
Definition after {V} (later earlier : Updates V) : Updates V :=
  {| new_id := match new_id later with
               | Some i => Some i
               | None => new_id earlier
               end;
     new_fields := new_fields later ∪ new_fields earlier |}.

End WorkspaceStore.

(** A store with two workspaces, the second of them current, and an update
    that renames. *)
Definition ws (i : Z) (name : string) : WorkspaceStore.Workspace string :=
  {| WorkspaceStore.id := i; WorkspaceStore.fields := {[ "name" := name ]} |}.

Definition two_workspaces : WorkspaceStore.WorkspaceState string :=
  {| WorkspaceStore.workspaces := [ws 1 "support"; ws 2 "sales"];
     WorkspaceStore.currentWorkspace := Some (ws 2 "sales");
     WorkspaceStore.isLoading := false; WorkspaceStore.error := None |}.

Definition rename (name : string) : WorkspaceStore.Updates string :=
  {| WorkspaceStore.new_id := None;
     WorkspaceStore.new_fields := {[ "name" := name ]} |}.

(** ** Lists of choices on the preferences and onboarding pages *)
Module Choices.

(** A click on a board or a channel: [l.includes(x) ? l.filter((b) => b !== x)
    : [...l, x]]. *)
Definition toggle (x : string) (l : list string) : list string :=
  if bool_decide (x ∈ l) then filter (λ b, b ≠ x) l else l ++ [x].

(** The cross next to a keyword: [keywords.filter((k) => k !== kw)]. *)
Definition removeKeyword (kw : string) (keywords : list string) : list string :=
  filter (λ k, k ≠ kw) keywords.

(** [addKeyword] and [addExcluded]: the list and the text of the input
    field before and after.  [trim] is [String.prototype.trim]. *)
Definition addKeyword (trim : string → string)
    (keywords : list string) (newKeyword : string) : list string * string :=
  if bool_decide (trim newKeyword ≠ "")
     && negb (bool_decide (trim newKeyword ∈ keywords))
  then (keywords ++ [trim newKeyword], "")
  else (keywords, newKeyword).

End Choices.

(** ** The onboarding page: [handleDeploy] *)

(** What [handleDeploy] does besides calling the client: it sets the
    loading flag, shows a toast (destructive or not, with a title and a
    description) and pushes a route. *)
Inductive OnboardingEvent :=
  | SetIsLoading (b : bool)
  | Toast (destructive : bool) (title description : string)
  | Push (path : string).

(** [workspace.id] of [workspace = workspaceResponse.data]: reading it off
    [undefined] or [null] throws, a string has no such property. *)
Definition workspace_id (d : payload) : option jsval :=
  match d with
  | NoBody => None
  | Text _ => Some Undefined
  | Object o => Some (prop "id" o)
  end.

(** [error.response?.data?.error || 'Something went wrong'] *)
Definition failure_description (error : thrown) : string :=
  match error with
  | EAxios {| response := Some {| body := Object o |} |} =>
      if truthy (prop "error" o) then to_string (prop "error" o)
      else "Something went wrong"
  | _ => "Something went wrong"
  end.

(** The config object behind [api.get(path)]. *)
Definition get_config (path : string) : Config :=
  {| method := "get"; baseURL := None; url := path; headers := ∅;
     data := NoBody; _retry := false |}.

(** ** The dashboard layout (its [checkAuth] effect)

    What [checkAuth] does besides calling the client: calls to [setUser] and
    [setLoading] of the auth store, and [router.push]. *)
Inductive AppEvent :=
  | SetUser (d : payload)
  | SetLoading (b : bool)
  | RouterPush (path : string).

Section Client.

(** [process.env.NEXT_PUBLIC_API_URL || 'http://localhost:8000'] *)
Variable API_URL : string.

(** The backend: it answers a request with a response, or not at all
    (network error). *)
Variable Srv : Type.
Variable transport : Srv → Wire → Srv * option Response.

Abbreviation World := (World Srv).

Definition refresh_url : string := API_URL +:+ "/api/auth/refresh/".

(** The adapter: record the request, let the server answer. *)
Definition send (via : Channel) (c : Config) (w : World) : option Response * World :=
  let '(srv, res) := transport (server w) (wire c) in
  (res, {| auth := auth w; heap := heap w; server := srv;
           log := log w ++ [Sent via (wire c)] |}).

(** [axios.post(url, d)] on the bare library: no interceptor runs. *)
Definition axios_post (target : string) (d : payload) (w : World) : settled * World :=
  let c := post_config target d default_headers in
  let '(r, w1) := alloc c w in
  let '(res, w2) := send Bare c w1 in
  (settle r res, w2).

(** [mergeConfig(api.defaults, cfg)]: a copy of [cfg], fields the library
    does not know ([_retry]) included, completed by the instance
    defaults. *)
Definition mergeConfig (cfg : Config) : Config :=
  {| method := method cfg;
     baseURL := Some (default (API_URL +:+ "/api") (baseURL cfg));
     url := url cfg;
     headers := headers cfg ∪ default_headers;
     data := data cfg;
     _retry := _retry cfg |}.

(** The config object of the handler's refresh request, and the request as
    it goes on the wire. *)
Definition refresh_config (refreshToken : jsval) : Config :=
  post_config refresh_url (Object {[ "refresh" := refreshToken ]}) default_headers.

Definition refresh_request (refreshToken : jsval) : Wire :=
  wire (refresh_config refreshToken).

(** The body of the [try] block up to the destructuring (lines 36-46):
    either something is thrown, or the new access token and the refresh
    token that was read are at hand. *)
Definition refresh_attempt (w : World) : (thrown + jsval * jsval) * World :=
  let refreshToken := refreshToken (auth w) in
  if negb (truthy refreshToken) then (inl (EError "No refresh token"), w)
  else
    let '(res, w1) :=
      axios_post refresh_url (Object {[ "refresh" := refreshToken ]}) w in
    match res with
    | Rejected e => (inl e, w1)
    | Resolved resp =>
        match destructure_access (body resp) with
        | None => (inl (ETypeError "Cannot destructure property 'access'"), w1)
        | Some access => (inr (access, refreshToken), w1)
        end
    end.

(** The [catch] block (lines 52-57). *)
Definition refresh_failed (refreshError : thrown) (w : World) : settled * World :=
  (Rejected refreshError, emit (Navigate "/login") (with_auth logout w)).

(** The [try]/[catch] of the handler (lines 35-57), entered with the
    request object [r], whose fields are [originalRequest].  The promise of
    the replay is returned without being awaited: its rejection does not
    reach the [catch]. *)
Definition refresh_and_replay (api : Config → World → option (settled * World))
    (r : ref) (originalRequest : Config) (w : World) : option (settled * World) :=
  match refresh_attempt w with
  | (inr (access, refreshToken), w) =>
      let w := with_auth (setTokens access refreshToken) w in
      let originalRequest :=
        set_header "Authorization" (bearer access) originalRequest in
      let w := store r originalRequest w in
      api originalRequest w
  | (inl refreshError, w) => Some (refresh_failed refreshError w)
  end.

(** ** The response interceptor's error handler (lines 28-61)

    [api] is the client itself, called again for the replay.  The test
    [error.response?.status === 401 && !originalRequest._retry] reads
    [_retry] only after the status matched; reading it from a config that
    is [undefined] throws.  An address with no object behind it stands for
    [undefined]. *)
Definition onRejected (api : Config → World → option (settled * World))
    (error : thrown) (w : World) : option (settled * World) :=
  if negb (is_401 error) then Some (Rejected error, w)
  else
    match config_of error ≫= λ r, pair r <$> heap w !! r with
    | None =>
        Some (Rejected (ETypeError
                "Cannot read properties of undefined (reading '_retry')"), w)
    | Some (r, originalRequest) =>
        if _retry originalRequest then Some (Rejected error, w)
        else
          let originalRequest := set_retry originalRequest in
          let w := store r originalRequest w in
          refresh_and_replay api r originalRequest w
    end.

(** The other two callbacks of the interceptors (lines 22 and 27): an error
    on the request side is rejected as it is, a response is passed on as it
    is. *)
Definition onRequestError (error : thrown) : settled := Rejected error.

Definition onFulfilled (response : Response) : settled := Resolved response.

(** The request as the pipeline hands it to the adapter: merged with the
    instance defaults, then through the request interceptor. *)
Definition outgoing (s : AuthState) (cfg : Config) : Config :=
  onRequest s (mergeConfig cfg).

(** ** The client: [api(cfg)] (lines 6-11 and the interceptor pipeline)

    [fuel] bounds the number of dispatches; [None] is "ran out of it". *)
Fixpoint api (fuel : nat) (cfg : Config) (w : World) : option (settled * World) :=
  match fuel with
  | 0 => None
  | S fuel =>
      let c := outgoing (auth w) cfg in
      let '(r, w1) := alloc c w in
      let '(res, w2) := send Client c w1 in
      match settle r res with
      | Resolved resp => Some (onFulfilled resp, w2)
      | Rejected error => onRejected (api fuel) error w2
      end
  end.

(** [api.post(url, d)] *)
Definition api_post (fuel : nat) (path : string) (d : payload) (w : World) :=
  api fuel (post_config path d ∅) w.

(** [authApi.refresh(refreshToken)] (lines 72-73) *)
Definition authApi_refresh (fuel : nat) (refreshToken : string) (w : World) :=
  api_post fuel "/auth/refresh/" (Object {[ "refresh" := Str refreshToken ]}) w.


(** The ways a refresh can fail that the specification names, each with the
    error it fails with: no refresh token in the store, no answer from the
    refresh endpoint, an answer outside 2xx. *)
Inductive refresh_fails (w : World) : thrown → Prop :=
  | fails_no_token :
      truthy (refreshToken (auth w)) = false →
      refresh_fails w (EError "No refresh token")
  | fails_network srv :
      truthy (refreshToken (auth w)) = true →
      transport (server w) (refresh_request (refreshToken (auth w))) = (srv, None) →
      refresh_fails w
        (EAxios {| config := Some (length (heap w)); response := None |})
  | fails_status srv resp :
      truthy (refreshToken (auth w)) = true →
      transport (server w) (refresh_request (refreshToken (auth w)))
        = (srv, Some resp) →
      ok_status (status resp) = false →
      refresh_fails w
        (EAxios {| config := Some (length (heap w)); response := Some resp |}).

(** ** The other helpers of [authApi] and their callers *)

(** [api.get(path)] *)
Definition api_get (fuel : nat) (path : string) (w : World) :=
  api fuel (get_config path) w.

(** [authApi.login({ email, password })] (lines 69-70) *)
Definition authApi_login (fuel : nat) (email password : string) (w : World) :=
  api_post fuel "/auth/login/"
    (Object {[ "email" := Str email; "password" := Str password ]}) w.

(** [authApi.register({ email, password, password_confirm })] (lines 66-67) *)
Definition authApi_register (fuel : nat) (email password password_confirm : string)
    (w : World) :=
  api_post fuel "/auth/register/"
    (Object {[ "email" := Str email; "password" := Str password;
               "password_confirm" := Str password_confirm ]}) w.

(** [authApi.me()] (line 75) *)
Definition authApi_me (fuel : nat) (w : World) := api_get fuel "/auth/me/" w.

(** [checkAuth] of the dashboard layout.  [accessToken] is the token the
    component was rendered with; the calls to the store's [setUser] and
    [setLoading] and to the router are recorded in [app], in order. *)
Definition checkAuth (fuel : nat) (accessToken : jsval) (w : World)
    (app : list AppEvent) : option (World * list AppEvent) :=
  if negb (truthy accessToken) then Some (w, app ++ [RouterPush "/login"])
  else
    match authApi_me fuel w with
    | None => None
    | Some (Resolved response, w) =>
        Some (w, app ++ [SetUser (body response); SetLoading false])
    | Some (Rejected error, w) =>
        Some (with_auth logout w, app ++ [RouterPush "/login"])
    end.

(** ** The helpers [handleDeploy] calls, and [handleDeploy] *)

(** [workspaceApi.create({ name, selected_model })] (lines 100-101) *)
Definition workspaceApi_create (fuel : nat) (name selected_model : string) (w : World) :=
  api_post fuel "/workspaces/"
    (Object {[ "name" := Str name; "selected_model" := Str selected_model ]}) w.

(** [workspaceApi.deploy(id)] (line 108): a POST without a body. *)
Definition workspaceApi_deploy (fuel : nat) (id : jsval) (w : World) :=
  api_post fuel ("/workspaces/" +:+ to_string id +:+ "/deploy/") NoBody w.

(** [channelApi.setupTelegram(workspaceId, botToken)] (lines 210-211) *)
Definition channelApi_setupTelegram (fuel : nat) (workspaceId : jsval)
    (botToken : string) (w : World) :=
  api_post fuel ("/workspaces/" +:+ to_string workspaceId +:+ "/channels/telegram/setup/")
    (Object {[ "bot_token" := Str botToken ]}) w.

(** The [catch] and [finally] of [handleDeploy]. *)
Definition deploy_failed (error : thrown) (w : World)
  : option (World * list OnboardingEvent) :=
  Some (w, [SetIsLoading true;
            Toast true "Deployment failed" (failure_description error);
            SetIsLoading false]).

(** The end of the [try] block: deploy, toast, route. *)
Definition deploy_and_go (fuel : nat) (id : jsval) (w : World)
  : option (World * list OnboardingEvent) :=
  match workspaceApi_deploy fuel id w with
  | None => None
  | Some (Rejected error, w) => deploy_failed error w
  | Some (Resolved _, w) =>
      Some (w, [SetIsLoading true;
                Toast false "Deployment started!"
                  "Your AI assistant is being deployed.";
                Push ("/dashboard/workspaces/" +:+ to_string id);
                SetIsLoading false])
  end.

(** [handleDeploy] of the onboarding page, on the state the component holds:
    the workspace name, the model, the channels chosen and the Telegram
    token. *)
Definition handleDeploy (fuel : nat) (workspaceName selectedModel : string)
    (selectedChannels : list string) (telegramToken : string) (w : World)
  : option (World * list OnboardingEvent) :=
  match workspaceApi_create fuel workspaceName selectedModel w with
  | None => None
  | Some (Rejected error, w) => deploy_failed error w
  | Some (Resolved workspaceResponse, w) =>
      match workspace_id (body workspaceResponse) with
      | None =>
          deploy_failed
            (ETypeError "Cannot read properties of undefined (reading 'id')") w
      | Some id =>
          if bool_decide ("telegram" ∈ selectedChannels)
             && bool_decide (telegramToken ≠ "")
          then
            match channelApi_setupTelegram fuel id telegramToken w with
            | None => None
            | Some (Rejected error, w) => deploy_failed error w
            | Some (Resolved _, w) => deploy_and_go fuel id w
            end
          else deploy_and_go fuel id w
      end
  end.

(** What may be on the wire, or happen, on behalf of a request [cfg] sent
    from a store whose refresh token is [rt]. *)
Definition on_behalf_of (cfg : Config) (rt : jsval) (ev : Event) : Prop :=
  match ev with
  | Sent Client req =>
      w_method req = method cfg ∧
      w_url req = buildFullPath (Some (default (API_URL +:+ "/api") (baseURL cfg)))
                    (url cfg) ∧
      w_data req = data cfg
  | Sent Bare req => req = refresh_request rt
  | Navigate href => href = "/login"
  end.

(** The requests between two worlds are all POSTs. *)
Definition posts_only (w w' : World) : Prop :=
  ∃ evs, log w' = log w ++ evs ∧
         ∀ via req, Sent via req ∈ evs → w_method req = "post".

(** What [handleDeploy] leaves behind whichever way it ends, [created] being
    the id of the workspace it works on, once there is one. *)
Definition deploy_ended (created : option jsval) (w w' : World)
    (shown : list OnboardingEvent) : Prop :=
  posts_only w w' ∧
  ∃ between,
    shown = SetIsLoading true :: between ++ [SetIsLoading false] ∧
    ((∃ description, between = [Toast true "Deployment failed" description]) ∨
     (∃ id, created = Some id ∧
            between = [Toast false "Deployment started!"
                         "Your AI assistant is being deployed.";
                       Push ("/dashboard/workspaces/" +:+ to_string id)])).

(** ** Properties *)

Implicit Types (w : World) (error : thrown) (cfg c : Config) (r : ref).
Implicit Types (replay : Config → World → option (settled * World)).

Lemma names_authorization_exact : names_authorization "Authorization" = true.
Proof. done. Qed.

(** The [Authorization] property, when there is one, is what goes out. *)
Lemma normalize_authorization (h : gmap string string) (v : string) :
  h !! "Authorization" = Some v → normalize h !! "Authorization" = Some v.
Proof.
  intros Hv. unfold normalize, authorization_of. rewrite Hv.
  apply lookup_insert_eq.
Qed.

(** Under any other spelling of that name nothing goes out; the other
    headers go out as they are. *)
Lemma normalize_other (h : gmap string string) (k : string) :
  k ≠ "Authorization" →
  normalize h !! k = if names_authorization k then None else h !! k.
Proof.
  intros Hk.
  assert (Hothers :
    filter (λ kv : string * string, names_authorization kv.1 = false) h !! k
    = if names_authorization k then None else h !! k).
  { rewrite map_lookup_filter. destruct (h !! k) as [v|] eqn:Hv; simpl.
    - destruct (names_authorization k) eqn:Hn.
      + by rewrite option_guard_False.
      + by rewrite option_guard_True.
    - by destruct (names_authorization k). }
  unfold normalize. destruct (authorization_of h).
  - by rewrite lookup_insert_ne.
  - done.
Qed.

(** Headers that do not name [Authorization] in any spelling go out with
    none. *)
Lemma normalize_without (h : gmap string string) :
  (∀ k v, h !! k = Some v → names_authorization k = false) →
  normalize h !! "Authorization" = None.
Proof.
  intros Hno. unfold normalize, authorization_of.
  destruct (h !! "Authorization") as [v|] eqn:Hv.
  { by apply Hno in Hv. }
  destruct (map_to_list _) as [|[k v] l] eqn:Hl; simpl.
  - rewrite map_lookup_filter_None. left.
    destruct (h !! "Authorization"); done.
  - assert (Hin : (k, v) ∈ map_to_list
        (filter (λ kv : string * string, names_authorization kv.1 = true) h))
      by (rewrite Hl; left).
    apply elem_of_map_to_list, map_lookup_filter_Some in Hin as [Hin Hn].
    apply Hno in Hin. simpl in Hn. congruence.
Qed.

Lemma header_count_insert (k v : string) (h : gmap string string) :
  header_count k (<[k := v]> h) = 1.
Proof.
  unfold header_count. rewrite <- insert_delete_eq.
  rewrite map_to_list_insert by apply lookup_delete_eq.
  rewrite filter_cons_True by done. simpl. f_equal.
  apply length_zero_iff_nil.
  destruct (filter _ _) as [|[k' v'] l] eqn:E; [done|].
  assert (Hin : (k', v') ∈ filter (λ kv, kv.1 = k) (map_to_list (delete k h)))
    by (rewrite E; left).
  apply list_elem_of_filter in Hin as [Hk Hin]. simpl in Hk. subst k'.
  apply elem_of_map_to_list in Hin. by rewrite lookup_delete_eq in Hin.
Qed.

(** A 401 whose request object is already marked is handed back as it is. *)
Lemma retried_passes replay error w r c :
  config_of error = Some r → heap w !! r = Some c → _retry c = true →
  onRejected replay error w = Some (Rejected error, w).
Proof.
  intros Hc Hr Ht. unfold onRejected.
  destruct (is_401 error); simpl; [|done].
  rewrite Hc. simpl. rewrite Hr. simpl. by rewrite Ht.
Qed.

Lemma onRequest_retry (s : AuthState) cfg : _retry (onRequest s cfg) = _retry cfg.
Proof. unfold onRequest. by destruct (truthy _). Qed.

Lemma settle_rejected_config r res error :
  settle r res = Rejected error → config_of error = Some r.
Proof.
  unfold settle. destruct res as [resp|]; [destruct (ok_status _)|];
    intros [= <-]; done.
Qed.

(** The refresh attempt when there is a token to send. *)
Lemma refresh_attempt_sent w srv res :
  truthy (refreshToken (auth w)) = true →
  transport (server w) (refresh_request (refreshToken (auth w))) = (srv, res) →
  refresh_attempt w =
    (match settle (length (heap w)) res with
     | Rejected e => inl e
     | Resolved resp =>
         match destructure_access (body resp) with
         | None => inl (ETypeError "Cannot destructure property 'access'")
         | Some access => inr (access, refreshToken (auth w))
         end
     end,
     {| auth := auth w;
        heap := heap w ++ [refresh_config (refreshToken (auth w))];
        server := srv;
        log := log w ++ [Sent Bare (refresh_request (refreshToken (auth w)))] |}).
Proof.
  intros Hrt Htr. unfold refresh_attempt, axios_post, alloc, send. simpl.
  rewrite Hrt. simpl. unfold refresh_request, refresh_config in Htr. rewrite Htr.
  fold (refresh_config (refreshToken (auth w))).
  destruct (settle _ res) as [resp|e]; [|done].
  by destruct (destructure_access _).
Qed.

(** A request already marked retried goes out once and settles by what the
    transport answers, whatever that is. *)
Lemma api_retried n cfg w srv res :
  _retry cfg = true →
  transport (server w) (wire (outgoing (auth w) cfg)) = (srv, res) →
  api (S n) cfg w =
    Some (settle (length (heap w)) res,
          {| auth := auth w;
             heap := heap w ++ [outgoing (auth w) cfg];
             server := srv;
             log := log w ++ [Sent Client (wire (outgoing (auth w) cfg))] |}).
Proof.
  intros Ht Htr. simpl. unfold alloc, send. simpl. rewrite Htr.
  destruct (settle _ res) as [resp|e] eqn:E; [done|].
  eapply retried_passes.
  - eauto using settle_rejected_config.
  - simpl. apply list_lookup_middle. done.
  - unfold outgoing. by rewrite onRequest_retry.
Qed.

(** The whole run of the handler when the refresh succeeds. *)
Lemma refresh_success_run n error w r c srv1 resp access srv2 res2 :
  first_401 error w r c →
  truthy (refreshToken (auth w)) = true →
  transport (server w) (refresh_request (refreshToken (auth w)))
    = (srv1, Some resp) →
  ok_status (status resp) = true →
  destructure_access (body resp) = Some access →
  let c' := set_header "Authorization" (bearer access) (set_retry c) in
  let s' := setTokens access (refreshToken (auth w)) (auth w) in
  transport srv1 (wire (outgoing s' c')) = (srv2, res2) →
  onRejected (api (S n)) error w =
    Some (settle (S (length (heap w))) res2,
          {| auth := s';
             heap := <[r := c']> (<[r := set_retry c]> (heap w)
                                  ++ [refresh_config (refreshToken (auth w))])
                     ++ [outgoing s' c'];
             server := srv2;
             log := log w ++ [Sent Bare (refresh_request (refreshToken (auth w)));
                              Sent Client (wire (outgoing s' c'))] |}).
Proof.
  intros (H401 & Hc & Hr & Ht) Hrt Htr1 Hok Hacc c' s' Htr2.
  unfold onRejected. rewrite H401, Hc. cbn -[api]. rewrite Hr. cbn -[api].
  rewrite Ht. unfold refresh_and_replay.
  erewrite refresh_attempt_sent by (simpl; eauto). cbn -[api].
  rewrite Hok, Hacc.
  erewrite api_retried by (simpl; eauto). cbn.
  rewrite length_insert, length_app, length_insert. cbn.
  rewrite Nat.add_1_r, <- app_assoc. done.
Qed.

(** The header a replay carries after a refresh that answered [access]. *)
Lemma replay_header (s : AuthState) (access : jsval) c :
  accessToken s = access →
  headers (outgoing s (set_header "Authorization" (bearer access) c))
    !! "Authorization" = Some (bearer access).
Proof.
  intros Hs. unfold outgoing, onRequest. rewrite Hs.
  destruct (truthy access); simpl.
  - apply lookup_insert_eq.
  - apply lookup_union_Some_l, lookup_insert_eq.
Qed.

(** C6. The request interceptor is a total function of the session state
    and the config.  With a (truthy) access token in the store it sets the
    [Authorization] header to [Bearer <token>], the result has exactly one
    header of that name, and every other header and field of the request is
    as before; without one it returns the config as it is. *)
Theorem request_hook_bearer (s : AuthState) cfg :
  if truthy (accessToken s) then
    headers (onRequest s cfg) !! "Authorization"
      = Some ("Bearer " +:+ to_string (accessToken s)) ∧
    header_count "Authorization" (headers (onRequest s cfg)) = 1 ∧
    (∀ k, k ≠ "Authorization" →
          headers (onRequest s cfg) !! k = headers cfg !! k) ∧
    method (onRequest s cfg) = method cfg ∧
    baseURL (onRequest s cfg) = baseURL cfg ∧
    url (onRequest s cfg) = url cfg ∧
    data (onRequest s cfg) = data cfg ∧
    _retry (onRequest s cfg) = _retry cfg
  else onRequest s cfg = cfg.
Proof.
  unfold onRequest. destruct (truthy (accessToken s)); [|done].
  simpl. split_and!; try done.
  - apply lookup_insert_eq.
  - apply header_count_insert.
  - intros k Hk. by apply lookup_insert_ne.
Qed.

(** C3. An error that is not a 401 response, and a 401 whose request is
    already marked retried, is rejected as it came: the world (session,
    request objects, server, log of requests and redirects) is the one
    the handler was entered with, and the client is not called. *)
Theorem other_errors_pass_through replay error w :
  is_401 error = false ∨
  (∃ r c, config_of error = Some r ∧ heap w !! r = Some c ∧ _retry c = true) →
  onRejected replay error w = Some (Rejected error, w).
Proof.
  intros [H | (r & c & Hc & Hr & Ht)].
  - unfold onRejected. by rewrite H.
  - eauto using retried_passes.
Qed.

(** C10. A 401 error without a request config makes the handler throw: the
    caller gets a [TypeError] in place of the error, and nothing else
    happens.  Conversely, a 401 that the handler rejects unchanged carries a
    config. *)
Theorem missing_config_type_error replay error w :
  is_401 error = true →
  (config_of error = None →
     ∃ msg, onRejected replay error w = Some (Rejected (ETypeError msg), w) ∧
            ETypeError msg ≠ error) ∧
  (∀ w', onRejected replay error w = Some (Rejected error, w') →
         ∃ r, config_of error = Some r).
Proof.
  intros H401. unfold onRejected. rewrite H401. simpl.
  destruct error as [e| |]; try done. simpl in *.
  destruct (config e) as [r|]; simpl.
  - split; [done|]. eauto.
  - split; [eauto|]. intros w' [=].
Qed.

(** The run of the handler when the store has no refresh token. *)
Lemma no_token_run replay error w r c :
  first_401 error w r c →
  truthy (refreshToken (auth w)) = false →
  onRejected replay error w =
    Some (Rejected (EError "No refresh token"),
          {| auth := {| accessToken := Null; refreshToken := Null |};
             heap := <[r := set_retry c]> (heap w);
             server := server w;
             log := log w ++ [Navigate "/login"] |}).
Proof.
  intros (H401 & Hc & Hr & Ht) Hrt.
  unfold onRejected. rewrite H401, Hc. simpl. rewrite Hr. simpl. rewrite Ht.
  unfold refresh_and_replay, refresh_attempt. simpl. by rewrite Hrt.
Qed.

(** C4. A first 401 with no refresh token in the store: the handler marks
    the request, sends nothing (the server and the log of requests are
    untouched), clears the session, redirects to the login page and rejects
    with the error it made up. *)
Theorem no_refresh_token_logs_out replay error w r c :
  first_401 error w r c →
  truthy (refreshToken (auth w)) = false →
  onRejected replay error w =
    Some (Rejected (EError "No refresh token"),
          {| auth := {| accessToken := Null; refreshToken := Null |};
             heap := <[r := set_retry c]> (heap w);
             server := server w;
             log := log w ++ [Navigate "/login"] |}).
Proof. apply no_token_run. Qed.

Lemma first_401_fresh {error w r c} :
  first_401 error w r c → ∀ res, settle (S (length (heap w))) res ≠ Rejected error.
Proof.
  intros (_ & Hc & Hr & _) res E.
  apply settle_rejected_config in E. apply lookup_lt_Some in Hr.
  rewrite Hc in E. injection E. lia.
Qed.

(** C1. A first 401, a refresh token in the store, and a refresh endpoint
    that answers 2xx with a body [access] can be read from: the handler
    puts exactly two requests on the wire, first one POST of
    [{ refresh: <refresh token> }] to the refresh endpoint by the bare
    library, then the original request once more through the client, with
    [Bearer <access>] as its [Authorization] header and everything else as
    in the original; the store's access token is [access]; the caller gets
    what the replay settles with, which is not the original error. *)
Theorem refresh_then_replay n error w r c srv1 resp access srv2 res2 :
  first_401 error w r c →
  truthy (refreshToken (auth w)) = true →
  transport (server w) (refresh_request (refreshToken (auth w)))
    = (srv1, Some resp) →
  ok_status (status resp) = true →
  destructure_access (body resp) = Some access →
  let replayed :=
    outgoing (setTokens access (refreshToken (auth w)) (auth w))
      (set_header "Authorization" (bearer access) (set_retry c)) in
  transport srv1 (wire replayed) = (srv2, res2) →
  ∃ w',
    onRejected (api (S n)) error w
      = Some (settle (S (length (heap w))) res2, w') ∧
    settle (S (length (heap w))) res2 ≠ Rejected error ∧
    log w' = log w ++ [Sent Bare (refresh_request (refreshToken (auth w)));
                       Sent Client (wire replayed)] ∧
    w_method (refresh_request (refreshToken (auth w))) = "post" ∧
    w_url (refresh_request (refreshToken (auth w)))
      = API_URL +:+ "/api/auth/refresh/" ∧
    w_data (refresh_request (refreshToken (auth w)))
      = Object {[ "refresh" := refreshToken (auth w) ]} ∧
    accessToken (auth w') = access ∧
    w_headers (wire replayed) !! "Authorization" = Some (bearer access) ∧
    (∀ k, k ≠ "Authorization" →
          w_headers (wire replayed) !! k = w_headers (wire (mergeConfig c)) !! k) ∧
    w_method (wire replayed) = method c ∧
    w_url (wire replayed) = w_url (wire (mergeConfig c)) ∧
    w_data (wire replayed) = data c.
Proof.
  intros H1 Hrt Htr1 Hok Hacc replayed Htr2.
  eexists. split; [by eapply refresh_success_run|].
  split; [by eapply first_401_fresh|].
  cbn -[replayed outgoing]. split_and!; try done.
  - by apply normalize_authorization, replay_header.
  - intros k Hk. rewrite !normalize_other by done.
    destruct (names_authorization k); [done|].
    unfold replayed, outgoing, onRequest. cbn.
    destruct (truthy access); cbn;
      by rewrite ?lookup_insert_ne, !lookup_union, ?lookup_insert_ne by done.
  - unfold replayed, outgoing, onRequest. cbn. by destruct (truthy access).
  - unfold replayed, outgoing, onRequest. cbn. by destruct (truthy access).
  - unfold replayed, outgoing, onRequest. cbn. by destruct (truthy access).
Qed.

(** C7. After a successful refresh the store holds the access token of the
    refresh response and the refresh token it held before: the handler
    writes back the refresh token it read, and nothing on the way to the
    settled replay touches the store again. *)
Theorem refresh_keeps_refresh_token n error w r c srv1 resp access :
  first_401 error w r c →
  truthy (refreshToken (auth w)) = true →
  transport (server w) (refresh_request (refreshToken (auth w)))
    = (srv1, Some resp) →
  ok_status (status resp) = true →
  destructure_access (body resp) = Some access →
  ∃ out w',
    onRejected (api (S n)) error w = Some (out, w') ∧
    auth w' = setTokens access (refreshToken (auth w)) (auth w) ∧
    refreshToken (auth w') = refreshToken (auth w) ∧
    accessToken (auth w') = access.
Proof.
  intros H1 Hrt Htr1 Hok Hacc.
  destruct (transport srv1
              (wire (outgoing (setTokens access (refreshToken (auth w)) (auth w))
                       (set_header "Authorization" (bearer access) (set_retry c)))))
    as [srv2 res2] eqn:Htr2.
  do 2 eexists. split; [by eapply refresh_success_run|]. done.
Qed.

(** C2. When the refresh fails (no refresh token to send, no answer from
    the refresh endpoint, or an answer outside 2xx) the handler rejects
    with the error of the refresh, which is not the 401 it was called
    with; by then the session is cleared and the last thing that happened
    is the redirect to the login page.  The client is not called again. *)
Theorem refresh_failure_logs_out replay error w r c refreshError :
  first_401 error w r c →
  refresh_fails w refreshError →
  ∃ w',
    onRejected replay error w = Some (Rejected refreshError, w') ∧
    refreshError ≠ error ∧
    auth w' = {| accessToken := Null; refreshToken := Null |} ∧
    last (log w') = Some (Navigate "/login").
Proof.
  intros H1 Hf. pose proof H1 as (H401 & Hc & Hr & Ht).
  unfold onRejected. rewrite H401, Hc. simpl. rewrite Hr. simpl. rewrite Ht.
  unfold refresh_and_replay.
  assert (Hne : ∀ res, EAxios {| config := Some (length (heap w)); response := res |}
                       ≠ error).
  { intros res <-. simpl in Hc. apply lookup_lt_Some in Hr.
    injection Hc. lia. }
  destruct Hf as [Hrt | srv Hrt Htr | srv resp Hrt Htr Hok].
  - unfold refresh_attempt. simpl. rewrite Hrt. simpl.
    eexists. split; [done|]. split_and!.
    + intros <-. done.
    + done.
    + simpl. apply last_snoc.
  - erewrite refresh_attempt_sent by (simpl; eauto). simpl.
    rewrite length_insert.
    eexists. split; [done|]. split_and!; [done|done|]. simpl. apply last_snoc.
  - erewrite refresh_attempt_sent by (simpl; eauto). simpl. rewrite Hok.
    rewrite length_insert.
    eexists. split; [done|]. split_and!; [done|done|]. simpl. apply last_snoc.
Qed.

Lemma string_append_assoc (a b d : string) : (a +:+ b) +:+ d = a +:+ (b +:+ d).
Proof.
  induction a as [|x a IH]; [done|].
  change (String x ((a +:+ b) +:+ d) = String x (a +:+ (b +:+ d))).
  by rewrite IH.
Qed.

Lemma drop_last_slash_cons (a : Ascii.ascii) (s : string) :
  s ≠ "" → drop_last_slash (String a s) = String a (drop_last_slash s).
Proof. by destruct s. Qed.

Lemma drop_last_slash_api (b : string) :
  drop_last_slash (b +:+ "/api") = b +:+ "/api".
Proof.
  induction b as [|x b IH]; [done|].
  change (String x b +:+ "/api") with (String x (b +:+ "/api")).
  rewrite drop_last_slash_cons by (by destruct b). by rewrite IH.
Qed.

Lemma strip_leading_slashes_none (s : string) :
  String.prefix "/" s = false → strip_leading_slashes s = s.
Proof.
  destruct s as [|a s]; [done|]. simpl.
  case_bool_decide as Ha; [|done]. subst a. by destruct s.
Qed.

(** The full URL of a path of this client, which starts with one slash,
    under the base URL of the instance. *)
Lemma buildFullPath_client (rest : string) :
  String.prefix "/" rest = false →
  buildFullPath (Some (API_URL +:+ "/api")) (String "/" rest)
  = API_URL +:+ "/api/" +:+ rest.
Proof.
  intros Hrest. unfold buildFullPath, isAbsoluteURL.
  rewrite bool_decide_eq_true_2 by (by destruct API_URL).
  change (String.prefix "//" (String "/" rest)) with (String.prefix "/" rest).
  rewrite Hrest. simpl. unfold combineURLs, strip_trailing_slashes.
  rewrite bool_decide_eq_false_2 by done.
  rewrite drop_last_slash_api, bool_decide_eq_true_2 by done.
  change (strip_leading_slashes (String "/" rest))
    with (strip_leading_slashes rest).
  rewrite strip_leading_slashes_none by done.
  by rewrite string_append_assoc.
Qed.

Lemma marked_lookup (h l1 l2 : list Config) r c1 c2 :
  r < length h →
  (<[r := c2]> (<[r := c1]> h ++ l1) ++ l2) !! r = Some c2.
Proof.
  intros Hr.
  rewrite lookup_app_l by (rewrite length_insert, length_app, length_insert; lia).
  apply list_lookup_insert_eq. rewrite length_app, length_insert. lia.
Qed.

(** The run of the handler when the refresh request is rejected. *)
Lemma refresh_rejected_run replay error w r c srv res e :
  first_401 error w r c →
  truthy (refreshToken (auth w)) = true →
  transport (server w) (refresh_request (refreshToken (auth w))) = (srv, res) →
  settle (length (heap w)) res = Rejected e →
  onRejected replay error w =
    Some (Rejected e,
          {| auth := {| accessToken := Null; refreshToken := Null |};
             heap := <[r := set_retry c]> (heap w)
                     ++ [refresh_config (refreshToken (auth w))];
             server := srv;
             log := log w ++ [Sent Bare (refresh_request (refreshToken (auth w)));
                              Navigate "/login"] |}).
Proof.
  intros (H401 & Hc & Hr & Ht) Hrt Htr E.
  unfold onRejected. rewrite H401, Hc. simpl. rewrite Hr. simpl. rewrite Ht.
  unfold refresh_and_replay.
  erewrite refresh_attempt_sent by (simpl; eauto). simpl.
  rewrite length_insert, E. unfold refresh_failed, emit. simpl.
  by rewrite <- app_assoc.
Qed.

(** Every first 401 is settled by the handler with one replay at most, and
    at most one request of the bare library; the request object stays
    marked. *)
Lemma handler_settles n error w r c :
  first_401 error w r c →
  ∃ out w' evs,
    onRejected (api (S n)) error w = Some (out, w') ∧
    log w' = log w ++ evs ∧ bare_calls evs ≤ 1 ∧
    ∃ c', heap w' !! r = Some c' ∧ _retry c' = true.
Proof.
  intros H1. pose proof H1 as (H401 & Hc & Hr & Ht).
  pose proof (lookup_lt_Some _ _ _ Hr) as Hlt.
  destruct (truthy (refreshToken (auth w))) eqn:Hrt.
  - destruct (transport (server w) (refresh_request (refreshToken (auth w))))
      as [srv1 res1] eqn:Htr1.
    destruct (settle (length (heap w)) res1) as [resp|e] eqn:E.
    + assert (res1 = Some resp ∧ ok_status (status resp) = true) as [-> Hok].
      { unfold settle in E. destruct res1 as [resp'|]; [|done].
        destruct (ok_status (status resp')) eqn:Hok; [|done].
        by injection E as ->. }
      destruct (destructure_access (body resp)) as [access|] eqn:Hacc.
      * destruct (transport srv1
          (wire (outgoing (setTokens access (refreshToken (auth w)) (auth w))
                   (set_header "Authorization" (bearer access) (set_retry c)))))
          as [srv2 res2] eqn:Htr2.
        do 3 eexists. split; [by eapply refresh_success_run|].
        simpl. split; [done|]. split; [done|].
        eexists. split; [by apply marked_lookup|done].
      * unfold onRejected. rewrite H401, Hc. simpl. rewrite Hr. simpl. rewrite Ht.
        unfold refresh_and_replay.
        erewrite refresh_attempt_sent by (simpl; eauto). cbn -[settle].
        rewrite length_insert, E, Hacc. unfold refresh_failed, emit. simpl.
        exists (Rejected (ETypeError "Cannot destructure property 'access'")).
        eexists. eexists [_; _]. split; [done|]. simpl.
        split; [by rewrite <- app_assoc|]. split; [done|].
        exists (set_retry c). split; [|done].
        rewrite lookup_app_l by (rewrite length_insert; lia).
        by apply list_lookup_insert_eq.
    + do 3 eexists. split; [by eapply refresh_rejected_run|].
      simpl. split; [done|]. split; [done|].
      exists (set_retry c). split; [|done].
      rewrite lookup_app_l by (rewrite length_insert; lia).
      by apply list_lookup_insert_eq.
  - do 3 eexists. split; [by eapply no_token_run|].
    simpl. split; [done|]. split; [unfold bare_calls; simpl; lia|].
    eexists. split; [by apply list_lookup_insert_eq|done].
Qed.

Lemma api_unfold n cfg w :
  api (S n) cfg w =
    let c := outgoing (auth w) cfg in
    let '(r, w1) := alloc c w in
    let '(res, w2) := send Client c w1 in
    match settle r res with
    | Resolved resp => Some (Resolved resp, w2)
    | Rejected error => onRejected (api n) error w2
    end.
Proof. done. Qed.

(** Two dispatches are all a request ever needs: it goes out, and whatever
    comes back it settles, after one request of the bare library at most. *)
Lemma api_settles n cfg w :
  ∃ out w' rest,
    api (S (S n)) cfg w = Some (out, w') ∧
    log w' = log w ++ Sent Client (wire (outgoing (auth w) cfg)) :: rest ∧
    bare_calls rest ≤ 1.
Proof.
  rewrite api_unfold. unfold alloc, send. cbn -[api].
  destruct (transport (server w) (wire (outgoing (auth w) cfg)))
    as [srv res] eqn:Htr.
  destruct (settle (length (heap w)) res) as [resp|error] eqn:E.
  { exists (Resolved resp). eexists. exists []. split; [done|].
    split; [done|]. unfold bare_calls. simpl. lia. }
  set (w2 := {| auth := auth w; heap := heap w ++ [outgoing (auth w) cfg];
                server := srv;
                log := log w ++ [Sent Client (wire (outgoing (auth w) cfg))] |}).
  assert (Hc : config_of error = Some (length (heap w)))
    by eauto using settle_rejected_config.
  assert (Hr : heap w2 !! length (heap w) = Some (outgoing (auth w) cfg))
    by (simpl; by apply list_lookup_middle).
  destruct (is_401 error) eqn:H401.
  - destruct (_retry (outgoing (auth w) cfg)) eqn:Ht.
    + exists (Rejected error), w2, []. split; [by eapply retried_passes|].
      split; [done|]. unfold bare_calls. simpl. lia.
    + destruct (handler_settles n error w2 _ _ (conj H401 (conj Hc (conj Hr Ht))))
        as (out & w' & evs & Hrun & Hlog & Hcalls & _).
      exists out, w', evs. split; [done|]. split; [|done].
      rewrite Hlog. simpl. by rewrite <- app_assoc.
  - exists (Rejected error), w2, []. split.
    + unfold onRejected. by rewrite H401.
    + split; [done|]. unfold bare_calls. simpl. lia.
Qed.

(** More fuel changes nothing: the handler calls the client only for a
    marked request, and that one settles at once. *)
Lemma onRejected_fuel n error w :
  onRejected (api (S n)) error w = onRejected (api 1) error w.
Proof.
  unfold onRejected. destruct (negb (is_401 error)); [done|].
  destruct (config_of error ≫= _) as [[r c]|]; [|done].
  destruct (_retry c); [done|]. unfold refresh_and_replay.
  destruct (refresh_attempt _) as [[e|[access rt]] w1]; [done|].
  set (c' := set_header "Authorization" (bearer access) (set_retry c)).
  cbn zeta.
  set (w2 := store r c' (with_auth (setTokens access rt) w1)).
  destruct (transport (server w2) (wire (outgoing (auth w2) c')))
    as [srv res] eqn:Htr.
  by rewrite !(api_retried _ c' w2 srv res).
Qed.

Lemma api_fuel n cfg w : api (S (S n)) cfg w = api 2 cfg w.
Proof.
  rewrite !api_unfold. cbn zeta.
  destruct (alloc _ w) as [r w1]. destruct (send Client _ w1) as [res w2].
  destruct (settle r res); [done|]. apply onRejected_fuel.
Qed.

(** C5. A request object is refreshed at most once.  The handler of a
    first 401 is the refresh-and-replay block run on the world in which the
    request object is already marked and nothing else has happened yet; it
    settles, with one request of the bare library at most on the way; the
    object is still marked afterwards, so that any later 401 that carries
    it is rejected as it comes, with no effect at all.  A dispatch through
    the client (its replay included) settles with any fuel from two on, and
    with the same result, after one request of the bare library at most:
    there is no loop. *)
Theorem at_most_one_refresh n error w r c :
  first_401 error w r c →
  onRejected (api (S n)) error w
    = refresh_and_replay (api (S n)) r (set_retry c) (store r (set_retry c) w) ∧
  heap (store r (set_retry c) w) !! r = Some (set_retry c) ∧
  log (store r (set_retry c) w) = log w ∧
  server (store r (set_retry c) w) = server w ∧
  (∃ out w' evs,
     onRejected (api (S n)) error w = Some (out, w') ∧
     log w' = log w ++ evs ∧ bare_calls evs ≤ 1 ∧
     (∃ c', heap w' !! r = Some c' ∧ _retry c' = true) ∧
     (∀ replay error', config_of error' = Some r →
        onRejected replay error' w' = Some (Rejected error', w'))) ∧
  (∀ cfg w0, ∃ out w1 evs,
     api (S (S n)) cfg w0 = Some (out, w1) ∧
     api (S (S n)) cfg w0 = api 2 cfg w0 ∧
     log w1 = log w0 ++ evs ∧ bare_calls evs ≤ 1).
Proof.
  intros H1. pose proof H1 as (H401 & Hc & Hr & Ht).
  split_and!.
  - unfold onRejected. rewrite H401, Hc. cbn -[api]. rewrite Hr. cbn -[api].
    by rewrite Ht.
  - simpl. apply list_lookup_insert_eq. by eapply lookup_lt_Some.
  - done.
  - done.
  - destruct (handler_settles n error w r c H1)
      as (out & w' & evs & Hrun & Hlog & Hcalls & c' & Hr' & Ht').
    exists out, w', evs. split_and!; eauto using retried_passes.
  - intros cfg w0.
    destruct (api_settles n cfg w0) as (out & w1 & rest & Hrun & Hlog & Hcalls).
    exists out, w1, (Sent Client (wire (outgoing (auth w0) cfg)) :: rest).
    split_and!; [done|apply api_fuel|done|]. unfold bare_calls in *.
    by rewrite filter_cons_False by done.
Qed.


(** The handler's run against a refresh endpoint that answers 401. *)
Lemma refresh_401_run replay error w r c :
  (∀ srv req, w_url req = refresh_url →
              ∃ resp, (transport srv req).2 = Some resp ∧ status resp = 401) →
  first_401 error w r c →
  truthy (refreshToken (auth w)) = true →
  ∃ e w',
    onRejected replay error w = Some (Rejected e, w') ∧
    is_401 e = true ∧ config_of e = Some (length (heap w)) ∧
    log w' = log w ++ [Sent Bare (refresh_request (refreshToken (auth w)));
                       Navigate "/login"].
Proof.
  intros Hsrv H1 Hrt.
  destruct (transport (server w) (refresh_request (refreshToken (auth w))))
    as [srv res] eqn:Htr.
  destruct (Hsrv (server w) (refresh_request (refreshToken (auth w))) eq_refl)
    as (resp & Hres & Hst).
  rewrite Htr in Hres. simpl in Hres. subst res.
  do 2 eexists. split.
  - eapply refresh_rejected_run; eauto.
    unfold settle, ok_status. rewrite Hst. done.
  - simpl. by rewrite Hst.
Qed.

(** C8. Against a backend whose refresh endpoint answers 401.  The refresh
    request of the handler goes out by the bare library without an
    [Authorization] header, and its 401 ends the handling: logout,
    redirect, rejection, and no further request.  [authApi.refresh] goes
    through the client: its request, to the same endpoint, carries
    [Bearer <access token>], and its 401 enters the handler, which issues
    its own refresh request next. *)
Theorem refresh_paths n error w r c (tok : string) :
  (∀ srv req, w_url req = refresh_url →
              ∃ resp, (transport srv req).2 = Some resp ∧ status resp = 401) →
  truthy (accessToken (auth w)) = true →
  truthy (refreshToken (auth w)) = true →
  first_401 error w r c →
  w_headers (refresh_request (refreshToken (auth w))) !! "Authorization" = None ∧
  (∃ e1 w1,
     onRejected (api (S n)) error w = Some (Rejected e1, w1) ∧
     is_401 e1 = true ∧
     log w1 = log w ++ [Sent Bare (refresh_request (refreshToken (auth w)));
                        Navigate "/login"]) ∧
  (∃ req e2 w2,
     authApi_refresh (S (S n)) tok w = Some (Rejected e2, w2) ∧
     log w2 = log w ++ [Sent Client req;
                        Sent Bare (refresh_request (refreshToken (auth w)));
                        Navigate "/login"] ∧
     w_method req = "post" ∧
     w_url req = refresh_url ∧
     w_data req = Object {[ "refresh" := Str tok ]} ∧
     w_headers req !! "Authorization"
       = Some ("Bearer " +:+ to_string (accessToken (auth w)))).
Proof.
  intros Hsrv Ha Hrt H1. split_and!.
  - done.
  - destruct (refresh_401_run (api (S n)) error w r c Hsrv H1 Hrt)
      as (e1 & w1 & Hrun & H401 & _ & Hlog).
    eauto.
  - unfold authApi_refresh, api_post.
    set (cfg := post_config "/auth/refresh/" (Object {[ "refresh" := Str tok ]}) ∅).
    assert (Hurl : w_url (wire (outgoing (auth w) cfg)) = refresh_url).
    { unfold outgoing, onRequest. rewrite Ha. simpl.
      apply (buildFullPath_client "auth/refresh/"). done. }
    rewrite api_unfold. unfold alloc, send. cbn -[api cfg].
    destruct (transport (server w) (wire (outgoing (auth w) cfg)))
      as [srv res] eqn:Htr.
    destruct (Hsrv (server w) _ Hurl) as (resp & Hres & Hst).
    rewrite Htr in Hres. simpl in Hres. subst res.
    unfold settle, ok_status. rewrite Hst. cbn -[api cfg].
    edestruct (refresh_401_run (api (S n))
                 (EAxios {| config := Some (length (heap w));
                            response := Some resp |})
                 {| auth := auth w; heap := heap w ++ [outgoing (auth w) cfg];
                    server := srv;
                    log := log w ++ [Sent Client (wire (outgoing (auth w) cfg))] |}
                 (length (heap w)) (outgoing (auth w) cfg))
      as (e2 & w2 & Hrun & _ & _ & Hlog); [exact Hsrv| |exact Hrt|].
    { split_and!.
      - simpl. by rewrite Hst.
      - done.
      - simpl. by apply list_lookup_middle.
      - unfold outgoing. by rewrite onRequest_retry. }
    exists (wire (outgoing (auth w) cfg)), e2, w2.
    split; [exact Hrun|]. rewrite Hlog. simpl. rewrite <- app_assoc.
    split_and!; try done.
    + unfold outgoing, onRequest. by rewrite Ha.
    + unfold outgoing, onRequest. by rewrite Ha.
    + unfold outgoing, onRequest. rewrite Ha. simpl. apply lookup_insert_eq.
Qed.

(** ** A whole dispatch, from the caller's side *)

Lemma insert_last (h : list Config) (c x : Config) :
  <[length h := x]> (h ++ [c]) = h ++ [x].
Proof.
  rewrite insert_app_r_alt by lia. by rewrite Nat.sub_diag.
Qed.

Lemma insert_twice_app (h l : list Config) r (x y : Config) :
  r < length h → <[r := x]> (<[r := y]> h ++ l) = <[r := x]> h ++ l.
Proof.
  intros Hr. rewrite insert_app_l by (rewrite length_insert; lia).
  by rewrite list_insert_insert_eq.
Qed.

(** A first answer of 401 to a request that is not marked hands over to the
    handler, which meets the error for the first time. *)
Lemma api_first_401 n cfg w srv1 resp :
  transport (server w) (wire (outgoing (auth w) cfg)) = (srv1, Some resp) →
  status resp = 401 →
  _retry cfg = false →
  let w2 := {| auth := auth w; heap := heap w ++ [outgoing (auth w) cfg];
               server := srv1;
               log := log w ++ [Sent Client (wire (outgoing (auth w) cfg))] |} in
  let error := EAxios {| config := Some (length (heap w));
                         response := Some resp |} in
  api (S n) cfg w = onRejected (api n) error w2 ∧
  first_401 error w2 (length (heap w)) (outgoing (auth w) cfg).
Proof.
  intros Htr Hst Ht w2 error. split.
  - rewrite api_unfold. unfold alloc, send. cbn -[api].
    rewrite Htr. unfold settle, ok_status. by rewrite Hst.
  - split_and!.
    + simpl. by rewrite Hst.
    + done.
    + simpl. by apply list_lookup_middle.
    + unfold outgoing. by rewrite onRequest_retry.
Qed.

(** The run of a dispatch whose first answer settles it. *)
Lemma first_answer_run n cfg w srv res :
  transport (server w) (wire (outgoing (auth w) cfg)) = (srv, res) →
  (∀ resp, res = Some resp → status resp = 401 → _retry cfg = true) →
  api (S n) cfg w =
    Some (settle (length (heap w)) res,
          {| auth := auth w;
             heap := heap w ++ [outgoing (auth w) cfg];
             server := srv;
             log := log w ++ [Sent Client (wire (outgoing (auth w) cfg))] |}).
Proof.
  intros Htr Hpass.
  destruct (_retry cfg) eqn:Ht; [by apply api_retried|].
  rewrite api_unfold. unfold alloc, send. cbn -[api]. rewrite Htr.
  destruct (settle (length (heap w)) res) as [resp|error] eqn:E; [done|].
  unfold onRejected.
  assert (H401 : is_401 error = false); [|by rewrite H401].
  unfold settle in E. destruct res as [resp|].
  - destruct (ok_status (status resp)); [done|]. injection E as <-. simpl.
    destruct (status resp =? 401) eqn:Hst; [|done].
    apply Nat.eqb_eq in Hst. by specialize (Hpass resp eq_refl Hst).
  - by injection E as <-.
Qed.

(** X2. Unless the first answer is a 401 to a request that is not marked,
    the first answer is all there is: one request on the wire, one new
    request object, the session as it was, and the caller gets the response
    (2xx) or the error (anything else, or no answer) of that request.  One
    unit of fuel is enough. *)
Theorem first_answer_decides n cfg w srv res :
  transport (server w) (wire (outgoing (auth w) cfg)) = (srv, res) →
  (∀ resp, res = Some resp → status resp = 401 → _retry cfg = true) →
  api (S n) cfg w =
    Some (settle (length (heap w)) res,
          {| auth := auth w;
             heap := heap w ++ [outgoing (auth w) cfg];
             server := srv;
             log := log w ++ [Sent Client (wire (outgoing (auth w) cfg))] |}).
Proof. apply first_answer_run. Qed.

(** The run of a dispatch answered 401 with no refresh token in the store. *)
Lemma anonymous_401_run n cfg w srv resp :
  transport (server w) (wire (outgoing (auth w) cfg)) = (srv, Some resp) →
  status resp = 401 →
  _retry cfg = false →
  truthy (refreshToken (auth w)) = false →
  api (S n) cfg w =
    Some (Rejected (EError "No refresh token"),
          {| auth := {| accessToken := Null; refreshToken := Null |};
             heap := heap w ++ [set_retry (outgoing (auth w) cfg)];
             server := srv;
             log := log w ++ [Sent Client (wire (outgoing (auth w) cfg));
                              Navigate "/login"] |}).
Proof.
  intros Htr Hst Ht Hrt.
  destruct (api_first_401 n cfg w srv resp Htr Hst Ht) as [-> H1].
  erewrite no_token_run by eauto. simpl.
  by rewrite insert_last, <- app_assoc.
Qed.

(** X4. A 401 while the store has no refresh token (the answer to a login
    with wrong credentials, for one): the caller never sees that response.
    It gets [Error('No refresh token')]; the request went out once, nothing
    was sent to the refresh endpoint, the session is cleared and the page is
    sent to the login page. *)
Theorem anonymous_401_is_replaced n cfg w srv resp :
  transport (server w) (wire (outgoing (auth w) cfg)) = (srv, Some resp) →
  status resp = 401 →
  _retry cfg = false →
  truthy (refreshToken (auth w)) = false →
  api (S n) cfg w =
    Some (Rejected (EError "No refresh token"),
          {| auth := {| accessToken := Null; refreshToken := Null |};
             heap := heap w ++ [set_retry (outgoing (auth w) cfg)];
             server := srv;
             log := log w ++ [Sent Client (wire (outgoing (auth w) cfg));
                              Navigate "/login"] |}).
Proof. apply anonymous_401_run. Qed.

(** The request a replay puts on the wire is the first one but for its
    [Authorization] header. *)
Lemma replay_same_request (s s' : AuthState) (v : string) cfg :
  let first := wire (outgoing s cfg) in
  let again := wire (outgoing s' (set_header "Authorization" v
                                    (set_retry (outgoing s cfg)))) in
  w_method again = w_method first ∧ w_url again = w_url first ∧
  w_data again = w_data first ∧
  ∀ k, k ≠ "Authorization" → w_headers again !! k = w_headers first !! k.
Proof.
  unfold outgoing, onRequest. cbn.
  destruct (truthy (accessToken s)), (truthy (accessToken s')); cbn;
    split_and!; try done; intros k Hk;
    rewrite !normalize_other by done;
    (destruct (names_authorization k); [done|]);
    rewrite ?lookup_insert_ne, ?lookup_union, ?lookup_insert_ne, ?lookup_union
      by done;
    by destruct (headers cfg !! k), (default_headers !! k).
Qed.

(** The run of a dispatch answered 401 whose refresh and replay go through. *)
Lemma recovered_run n cfg w srv1 resp1 srv2 resp2 access srv3 res3 :
  transport (server w) (wire (outgoing (auth w) cfg)) = (srv1, Some resp1) →
  status resp1 = 401 →
  _retry cfg = false →
  truthy (refreshToken (auth w)) = true →
  transport srv1 (refresh_request (refreshToken (auth w))) = (srv2, Some resp2) →
  ok_status (status resp2) = true →
  destructure_access (body resp2) = Some access →
  let first := outgoing (auth w) cfg in
  let again := outgoing (setTokens access (refreshToken (auth w)) (auth w))
                 (set_header "Authorization" (bearer access) (set_retry first)) in
  transport srv2 (wire again) = (srv3, res3) →
  api (S (S n)) cfg w =
    Some (settle (length (heap w) + 2) res3,
          {| auth := {| accessToken := access;
                        refreshToken := refreshToken (auth w) |};
             heap := heap w ++ [set_header "Authorization" (bearer access)
                                  (set_retry first);
                                refresh_config (refreshToken (auth w));
                                again];
             server := srv3;
             log := log w ++ [Sent Client (wire first);
                              Sent Bare (refresh_request (refreshToken (auth w)));
                              Sent Client (wire again)] |}) ∧
  w_method (wire again) = w_method (wire first) ∧
  w_url (wire again) = w_url (wire first) ∧
  w_data (wire again) = w_data (wire first) ∧
  w_headers (wire again) !! "Authorization" = Some (bearer access) ∧
  (∀ k, k ≠ "Authorization" →
        w_headers (wire again) !! k = w_headers (wire first) !! k).
Proof.
  intros Htr1 Hst Ht Hrt Htr2 Hok Hacc first again Htr3.
  destruct (replay_same_request (auth w)
              (setTokens access (refreshToken (auth w)) (auth w))
              (bearer access) cfg) as (Hm & Hu & Hd & Hh).
  split_and!; try done; [|by apply normalize_authorization, replay_header].
  destruct (api_first_401 (S n) cfg w srv1 resp1 Htr1 Hst Ht) as [-> H1].
  erewrite refresh_success_run by (simpl; eauto). cbn.
  rewrite length_app, insert_twice_app by (rewrite length_app; simpl; lia).
  rewrite insert_last. cbn. rewrite <- !app_assoc. cbn.
  do 3 f_equal. lia.
Qed.

(** X5. An expired access token, seen from the caller: the first answer is
    401, the refresh is answered 2xx with a body [access] is read from, and
    the caller gets what the second answer to its request is.  Three
    requests went out: the request, the refresh by the bare library, and the
    request again, the same but for its [Authorization] header, which is
    [Bearer <access>].  The store holds [access] and the refresh token it
    had. *)
Theorem dispatch_recovers n cfg w srv1 resp1 srv2 resp2 access srv3 res3 :
  transport (server w) (wire (outgoing (auth w) cfg)) = (srv1, Some resp1) →
  status resp1 = 401 →
  _retry cfg = false →
  truthy (refreshToken (auth w)) = true →
  transport srv1 (refresh_request (refreshToken (auth w))) = (srv2, Some resp2) →
  ok_status (status resp2) = true →
  destructure_access (body resp2) = Some access →
  let first := outgoing (auth w) cfg in
  let again := outgoing (setTokens access (refreshToken (auth w)) (auth w))
                 (set_header "Authorization" (bearer access) (set_retry first)) in
  transport srv2 (wire again) = (srv3, res3) →
  api (S (S n)) cfg w =
    Some (settle (length (heap w) + 2) res3,
          {| auth := {| accessToken := access;
                        refreshToken := refreshToken (auth w) |};
             heap := heap w ++ [set_header "Authorization" (bearer access)
                                  (set_retry first);
                                refresh_config (refreshToken (auth w));
                                again];
             server := srv3;
             log := log w ++ [Sent Client (wire first);
                              Sent Bare (refresh_request (refreshToken (auth w)));
                              Sent Client (wire again)] |}) ∧
  w_method (wire again) = w_method (wire first) ∧
  w_url (wire again) = w_url (wire first) ∧
  w_data (wire again) = w_data (wire first) ∧
  w_headers (wire again) !! "Authorization" = Some (bearer access) ∧
  (∀ k, k ≠ "Authorization" →
        w_headers (wire again) !! k = w_headers (wire first) !! k).
Proof. apply recovered_run. Qed.

(** The run of the handler when the refresh is answered 2xx with a body
    that cannot be destructured. *)
Lemma refresh_unreadable_run replay error w r c srv resp :
  first_401 error w r c →
  truthy (refreshToken (auth w)) = true →
  transport (server w) (refresh_request (refreshToken (auth w))) = (srv, Some resp) →
  ok_status (status resp) = true →
  destructure_access (body resp) = None →
  onRejected replay error w =
    Some (Rejected (ETypeError "Cannot destructure property 'access'"),
          {| auth := {| accessToken := Null; refreshToken := Null |};
             heap := <[r := set_retry c]> (heap w)
                     ++ [refresh_config (refreshToken (auth w))];
             server := srv;
             log := log w ++ [Sent Bare (refresh_request (refreshToken (auth w)));
                              Navigate "/login"] |}).
Proof.
  intros (H401 & Hc & Hr & Ht) Hrt Htr Hok Hacc.
  unfold onRejected. rewrite H401, Hc. simpl. rewrite Hr. simpl. rewrite Ht.
  unfold refresh_and_replay.
  erewrite refresh_attempt_sent by (simpl; eauto). simpl.
  rewrite Hok, Hacc. unfold refresh_failed, emit. simpl.
  by rewrite <- app_assoc.
Qed.

(** The three ways a dispatch can go. *)
Lemma api_cases n cfg w :
  let first := outgoing (auth w) cfg in
  let rt := refreshToken (auth w) in
  ∃ out w',
    api (S (S n)) cfg w = Some (out, w') ∧
    ((auth w' = auth w ∧ heap w' = heap w ++ [first] ∧
      log w' = log w ++ [Sent Client (wire first)]) ∨
     (∃ e evs objs,
        out = Rejected e ∧
        auth w' = {| accessToken := Null; refreshToken := Null |} ∧
        heap w' = heap w ++ set_retry first :: objs ∧ length objs ≤ 1 ∧
        log w' = log w ++ Sent Client (wire first) :: evs ++ [Navigate "/login"] ∧
        (evs = [] ∨ evs = [Sent Bare (refresh_request rt)])) ∨
     (∃ access res again,
        truthy rt = true ∧
        out = settle (length (heap w) + 2) res ∧
        auth w' = {| accessToken := access; refreshToken := rt |} ∧
        heap w' = heap w ++ [set_header "Authorization" (bearer access)
                               (set_retry first);
                             refresh_config rt; again] ∧
        _retry again = true ∧
        log w' = log w ++ [Sent Client (wire first);
                           Sent Bare (refresh_request rt);
                           Sent Client (wire again)] ∧
        again = outgoing (setTokens access rt (auth w))
                  (set_header "Authorization" (bearer access) (set_retry first)))).
Proof.
  intros first rt.
  destruct (transport (server w) (wire first)) as [srv1 res1] eqn:Htr1.
  assert (Hpass :
    (∀ resp, res1 = Some resp → status resp = 401 → _retry cfg = true) ∨
    (∃ resp, res1 = Some resp ∧ status resp = 401 ∧ _retry cfg = false)).
  { destruct res1 as [resp|]; [|by left].
    destruct (decide (status resp = 401)) as [Hst|Hst]; [|left; naive_solver].
    destruct (_retry cfg) eqn:Ht; [by left|right; eauto]. }
  destruct Hpass as [Hpass|(resp1 & -> & Hst & Ht)].
  { do 2 eexists. split; [by apply first_answer_run|]. by left. }
  destruct (api_first_401 (S n) cfg w srv1 resp1 Htr1 Hst Ht) as [Hrun H1].
  rewrite Hrun. clear Hrun.
  destruct (truthy rt) eqn:Hrt.
  - destruct (transport srv1 (refresh_request rt)) as [srv2 res2] eqn:Htr2.
    destruct (settle (S (length (heap w))) res2) as [resp2|e] eqn:E.
    + assert (res2 = Some resp2 ∧ ok_status (status resp2) = true) as [-> Hok].
      { unfold settle in E. destruct res2 as [resp'|]; [|done].
        destruct (ok_status (status resp')) eqn:Hok; [|done].
        by injection E as ->. }
      destruct (destructure_access (body resp2)) as [access|] eqn:Hacc.
      * set (again := outgoing (setTokens access rt (auth w))
                        (set_header "Authorization" (bearer access)
                           (set_retry first))).
        destruct (transport srv2 (wire again)) as [srv3 res3] eqn:Htr3.
        do 2 eexists. split; [by eapply refresh_success_run|].
        right. right. exists access, res3, again. cbn.
        rewrite length_app, insert_twice_app by (rewrite length_app; simpl; lia).
        rewrite insert_last, <- !app_assoc. cbn.
        split_and!; try done.
        -- do 2 f_equal. lia.
        -- unfold again, outgoing. by rewrite onRequest_retry.
      * do 2 eexists. split; [by eapply refresh_unreadable_run|].
        right. left.
        exists (ETypeError "Cannot destructure property 'access'"),
          [Sent Bare (refresh_request rt)], [refresh_config rt]. cbn.
        rewrite insert_last, <- !app_assoc. cbn.
        split_and!; try done. by right.
    + do 2 eexists. split.
      { eapply refresh_rejected_run; [done|done|done|].
        cbn. rewrite length_app. cbn. rewrite Nat.add_1_r. exact E. }
      right. left.
      exists e, [Sent Bare (refresh_request rt)], [refresh_config rt]. cbn.
      rewrite insert_last, <- !app_assoc. cbn.
      split_and!; try done. by right.
  - do 2 eexists. split; [by eapply no_token_run|].
    right. left. exists (EError "No refresh token"), [], []. cbn.
    rewrite insert_last, <- !app_assoc. cbn.
    split_and!; try done; [lia|by left].
Qed.

(** X1. Whatever a request through the client meets, it settles, and the
    session ends in one of two ways.  Either nobody was logged out: the
    store's refresh token is the one it was and no redirect happened.  Or
    the session is cleared, the last thing that happened is the redirect to
    the login page, and the caller got a rejection. *)
Theorem dispatch_session_outcome n cfg w :
  ∃ out w' evs,
    api (S (S n)) cfg w = Some (out, w') ∧
    log w' = log w ++ evs ∧
    ((refreshToken (auth w') = refreshToken (auth w) ∧
      ∀ href, Navigate href ∉ evs) ∨
     (auth w' = {| accessToken := Null; refreshToken := Null |} ∧
      last evs = Some (Navigate "/login") ∧
      ∃ e, out = Rejected e)).
Proof.
  destruct (api_cases n cfg w) as (out & w' & Hrun & Hcases).
  exists out, w'.
  destruct Hcases as [(Ha & _ & Hlog)
    | [(e & evs & objs & -> & Ha & _ & _ & Hlog & _)
      | (access & res & again & _ & _ & Ha & _ & _ & Hlog & _)]].
  - eexists. split_and!; [done|done|]. left. rewrite Ha. split; [done|].
    intros href Hin. by apply list_elem_of_singleton in Hin.
  - eexists. split_and!; [done|done|]. right. split_and!; [done| |by eexists].
    rewrite app_comm_cons. apply last_snoc.
  - eexists. split_and!; [done|done|]. left. rewrite Ha. split; [done|].
    intros href Hin.
    repeat (apply elem_of_cons in Hin as [Hin|Hin]; [done|]).
    by apply elem_of_nil in Hin.
Qed.

(** X3. What a dispatch leaves behind.  The request objects that existed
    before it are all still there, unchanged: it adds between one and three
    of its own.  It puts between one and three requests on the wire, the
    first of them the request itself, and one of the bare library at
    most. *)
Theorem dispatch_footprint n cfg w :
  ∃ out w' objs evs,
    api (S (S n)) cfg w = Some (out, w') ∧
    heap w' = heap w ++ objs ∧ 1 ≤ length objs ≤ 3 ∧
    log w' = log w ++ Sent Client (wire (outgoing (auth w) cfg)) :: evs ∧
    length evs ≤ 2 ∧ bare_calls evs ≤ 1.
Proof.
  destruct (api_cases n cfg w) as (out & w' & Hrun & Hcases).
  exists out, w'.
  destruct Hcases as [(_ & Hheap & Hlog)
    | [(e & evs & objs & _ & _ & Hheap & Hlen & Hlog & Hevs)
      | (access & res & again & _ & _ & _ & Hheap & _ & Hlog & _)]].
  - exists [outgoing (auth w) cfg], [].
    split_and!; try done; unfold bare_calls; simpl; lia.
  - exists (set_retry (outgoing (auth w) cfg) :: objs),
      (evs ++ [Navigate "/login"]).
    split_and!; try done; simpl; try lia;
      destruct Hevs as [-> | ->]; unfold bare_calls; simpl; lia.
  - eexists [_; _; _], [_; _].
    split_and!; try done; unfold bare_calls; simpl; lia.
Qed.

(** ** The dashboard layout *)

(** X6. [checkAuth] always comes to an end, in one of two ways.  Rendered
    without a token it sends to the login page and touches nothing else, the
    client included.  Rendered with one it asks for [/auth/me/]: when that
    resolves it hands the response body to [setUser] and then calls
    [setLoading(false)], with the store's refresh token as it was; when that
    rejects, for whatever reason, the session is cleared and the router is
    sent to the login page. *)
Theorem checkAuth_outcome n (accessToken : jsval) w (app : list AppEvent) :
  ∃ w' app',
    checkAuth (S (S n)) accessToken w app = Some (w', app') ∧
    if truthy accessToken then
      (∃ response w1,
         authApi_me (S (S n)) w = Some (Resolved response, w1) ∧ w' = w1 ∧
         app' = app ++ [SetUser (body response); SetLoading false] ∧
         refreshToken (auth w') = refreshToken (auth w)) ∨
      (∃ error w1,
         authApi_me (S (S n)) w = Some (Rejected error, w1) ∧
         app' = app ++ [RouterPush "/login"] ∧
         auth w' = {| accessToken := Null; refreshToken := Null |} ∧
         heap w' = heap w1 ∧ server w' = server w1 ∧ log w' = log w1)
    else w' = w ∧ app' = app ++ [RouterPush "/login"].
Proof.
  unfold checkAuth. destruct (truthy accessToken); cbn -[api]; [|eauto].
  unfold authApi_me, api_get.
  destruct (api_cases n (get_config "/auth/me/") w)
    as (out & w1 & Hrun & Hcases).
  rewrite Hrun. destruct out as [response|error].
  - do 2 eexists. split; [done|]. left. exists response, w1.
    split_and!; try done.
    destruct Hcases as [(Ha & _)
      | [(e & evs & objs & [=] & _)|(access & res & again & _ & _ & Ha & _)]];
      by rewrite Ha.
  - do 2 eexists. split; [done|]. right. exists error, w1. done.
Qed.

(** X7. A user whose access token has expired but whose refresh token is
    good is let in: [/auth/me/] is answered 401, the refresh 2xx, the second
    [/auth/me/] 2xx, and [checkAuth] ends with [setUser] on the body of that
    last response and [setLoading(false)].  Nothing is pushed to the router,
    no redirect happens, and the store holds the new access token. *)
Theorem checkAuth_recovers n (accessToken : jsval) w (app : list AppEvent)
    srv1 resp1 srv2 resp2 access srv3 resp3 :
  truthy accessToken = true →
  transport (server w) (wire (outgoing (auth w) (get_config "/auth/me/")))
    = (srv1, Some resp1) →
  status resp1 = 401 →
  truthy (refreshToken (auth w)) = true →
  transport srv1 (refresh_request (refreshToken (auth w))) = (srv2, Some resp2) →
  ok_status (status resp2) = true →
  destructure_access (body resp2) = Some access →
  transport srv2
    (wire (outgoing (setTokens access (refreshToken (auth w)) (auth w))
             (set_header "Authorization" (bearer access)
                (set_retry (outgoing (auth w) (get_config "/auth/me/"))))))
    = (srv3, Some resp3) →
  ok_status (status resp3) = true →
  ∃ w',
    checkAuth (S (S n)) accessToken w app
      = Some (w', app ++ [SetUser (body resp3); SetLoading false]) ∧
    auth w' = {| accessToken := access; refreshToken := refreshToken (auth w) |} ∧
    server w' = srv3 ∧
    ∃ evs, log w' = log w ++ evs ∧ length evs = 3 ∧ ∀ href, Navigate href ∉ evs.
Proof.
  intros Htok Htr1 Hst Hrt Htr2 Hok2 Hacc Htr3 Hok3.
  unfold checkAuth, authApi_me, api_get. rewrite Htok. cbn -[api].
  destruct (recovered_run n (get_config "/auth/me/") w srv1 resp1 srv2 resp2
              access srv3 (Some resp3)) as [-> _]; try done.
  unfold settle. rewrite Hok3. eexists. split; [done|].
  split_and!; try done. eexists. split_and!; [done|done|].
  intros href Hin.
  repeat (apply elem_of_cons in Hin as [Hin|Hin]; [done|]).
  by apply elem_of_nil in Hin.
Qed.

(** ** The registration page on top of the client *)

(** X8. A registration that the server turns down while nobody is logged in.
    Turned down with anything but a 401, the page gets the error with the
    server's response, and the message comes from its body.  Turned down with
    a 401, the page gets the client's [Error('No refresh token')], which has
    no response: whatever the body of the 401 said, the message is the
    fallback. *)
Theorem register_rejection_message n (e p pc : string) w srv resp :
  transport (server w)
    (wire (outgoing (auth w)
             (post_config "/auth/register/"
                (Object {[ "email" := Str e; "password" := Str p;
                           "password_confirm" := Str pc ]}) ∅)))
    = (srv, Some resp) →
  ok_status (status resp) = false →
  truthy (refreshToken (auth w)) = false →
  ∃ error w',
    authApi_register (S n) e p pc w = Some (Rejected error, w') ∧
    if bool_decide (status resp = 401) then
      error = EError "No refresh token" ∧
      RegisterPage.errorMessage (RegisterPage.response_data error)
        = RegisterPage.fallback
    else
      error = EAxios {| config := Some (length (heap w)); response := Some resp |} ∧
      auth w' = auth w.
Proof.
  intros Htr Hok Hrt. unfold authApi_register, api_post.
  case_bool_decide as Hst.
  - do 2 eexists. split; [by eapply anonymous_401_run|]. done.
  - erewrite first_answer_run; [|done|by intros resp' [= <-] Hst'].
    unfold settle. rewrite Hok. by do 2 eexists.
Qed.

(** ** Where the requests of a dispatch go *)

Lemma outgoing_target (a : AuthState) cfg :
  on_behalf_of cfg Null (Sent Client (wire (outgoing a cfg))).
Proof.
  unfold outgoing, onRequest. simpl. by destruct (truthy (accessToken a)).
Qed.

Lemma dispatch_events n cfg w :
  ∃ out w' evs,
    api (S (S n)) cfg w = Some (out, w') ∧
    log w' = log w ++ evs ∧
    ∀ ev, ev ∈ evs → on_behalf_of cfg (refreshToken (auth w)) ev.
Proof.
  destruct (api_cases n cfg w) as (out & w' & Hrun & Hcases).
  exists out, w'.
  pose proof (outgoing_target (auth w) cfg) as Hfirst.
  destruct Hcases as [(_ & _ & Hlog)
    | [(e & evs & objs & _ & _ & _ & _ & Hlog & Hevs)
      | (access & res & again & _ & _ & _ & _ & _ & Hlog & ->)]].
  - eexists. split_and!; [done|done|].
    intros ev ->%list_elem_of_singleton. exact Hfirst.
  - eexists. split_and!; [done|done|].
    intros ev [->|Hin]%elem_of_cons; [exact Hfirst|].
    apply elem_of_app in Hin as [Hin| ->%list_elem_of_singleton]; [|done].
    destruct Hevs as [-> | ->]; [by apply elem_of_nil in Hin|].
    by apply list_elem_of_singleton in Hin as ->.
  - eexists. split_and!; [done|done|].
    intros ev Hin.
    destruct (replay_same_request (auth w)
                (setTokens access (refreshToken (auth w)) (auth w))
                (bearer access) cfg) as (Hm & Hu & Hd & _).
    repeat (apply elem_of_cons in Hin as [->|Hin]); try done.
    + simpl in *. rewrite Hm, Hu, Hd. exact Hfirst.
    + by apply elem_of_nil in Hin.
Qed.


(** ** The onboarding page *)

Lemma posts_only_refl w : posts_only w w.
Proof.
  exists []. split; [by rewrite app_nil_r|]. by intros via req Hin%elem_of_nil.
Qed.

Lemma posts_only_trans w w1 w2 :
  posts_only w w1 → posts_only w1 w2 → posts_only w w2.
Proof.
  intros (evs1 & Hlog1 & Hp1) (evs2 & Hlog2 & Hp2).
  exists (evs1 ++ evs2). split.
  - by rewrite Hlog2, Hlog1, app_assoc.
  - intros via req [Hin|Hin]%elem_of_app; eauto.
Qed.

Lemma deploy_ended_trans created w w1 w2 shown :
  posts_only w w1 → deploy_ended created w1 w2 shown →
  deploy_ended created w w2 shown.
Proof.
  intros Hposts [Hposts' Hshown]. split; [|done].
  by apply (posts_only_trans w w1).
Qed.

Lemma api_post_events n (path : string) (d : payload) w :
  ∃ out w', api_post (S (S n)) path d w = Some (out, w') ∧ posts_only w w'.
Proof.
  unfold api_post.
  destruct (dispatch_events n (post_config path d ∅) w)
    as (out & w' & evs & Hrun & Hlog & Hevs).
  exists out, w'. split; [done|]. exists evs. split; [done|].
  intros via req Hin. specialize (Hevs _ Hin).
  destruct via; simpl in Hevs; [by subst req|by destruct Hevs].
Qed.

Lemma deploy_failed_ended created error w :
  ∃ w' shown,
    deploy_failed error w = Some (w', shown) ∧ deploy_ended created w w' shown.
Proof.
  do 2 eexists. split; [done|]. split; [apply posts_only_refl|].
  eexists [_]. split; [done|]. left. by eexists.
Qed.

(** The end of the [try] block routes to the workspace it deployed. *)
Lemma deploy_and_go_ended n (id : jsval) w :
  ∃ w' shown,
    deploy_and_go (S (S n)) id w = Some (w', shown) ∧
    deploy_ended (Some id) w w' shown.
Proof.
  unfold deploy_and_go, workspaceApi_deploy.
  destruct (api_post_events n ("/workspaces/" +:+ to_string id +:+ "/deploy/")
              NoBody w) as ([resp|error] & w1 & -> & Hevs).
  - do 2 eexists. split; [done|]. apply (deploy_ended_trans _ w w1); [done|].
    split; [apply posts_only_refl|].
    eexists [_; _]. split; [done|]. right. by exists id.
  - destruct (deploy_failed_ended (Some id) error w1)
      as (w' & shown & -> & Hended).
    do 2 eexists. split; [done|]. by apply (deploy_ended_trans _ w w1).
Qed.

(** [handleDeploy] ends, and what it shows depends on the workspace the
    creation answered with, if it answered with one. *)
Lemma handleDeploy_run n (workspaceName selectedModel : string)
    (selectedChannels : list string) (telegramToken : string) w :
  ∃ w' shown created,
    handleDeploy (S (S n)) workspaceName selectedModel selectedChannels
      telegramToken w = Some (w', shown) ∧
    deploy_ended created w w' shown ∧
    (∀ id, created = Some id →
       ∃ resp w1,
         workspaceApi_create (S (S n)) workspaceName selectedModel w
         = Some (Resolved resp, w1) ∧
         workspace_id (body resp) = Some id).
Proof.
  unfold handleDeploy.
  destruct (api_post_events n "/workspaces/"
              (Object {[ "name" := Str workspaceName;
                         "selected_model" := Str selectedModel ]}) w)
    as ([resp|error] & w1 & Hcreate & Hevs1).
  - change (workspaceApi_create (S (S n)) workspaceName selectedModel w
            = Some (Resolved resp, w1)) in Hcreate.
    rewrite Hcreate.
    destruct (workspace_id (body resp)) as [id|] eqn:Hid.
    + assert (∀ i, Some id = Some i →
                ∃ resp' w1',
                  Some (Resolved resp, w1) = Some (Resolved resp', w1') ∧
                  workspace_id (body resp') = Some i) as Hfrom
        by (intros i [= <-]; by exists resp, w1).
      destruct (bool_decide ("telegram" ∈ selectedChannels)
                && bool_decide (telegramToken ≠ "")).
      * unfold channelApi_setupTelegram.
        destruct (api_post_events n
                    ("/workspaces/" +:+ to_string id +:+ "/channels/telegram/setup/")
                    (Object {[ "bot_token" := Str telegramToken ]}) w1)
          as ([resp2|error] & w2 & -> & Hevs2).
        -- destruct (deploy_and_go_ended n id w2) as (w' & shown & -> & Hended).
           exists w', shown, (Some id). split_and!; [done| |done].
           apply (deploy_ended_trans _ w w1); [done|].
           by apply (deploy_ended_trans _ w1 w2).
        -- destruct (deploy_failed_ended (Some id) error w2)
             as (w' & shown & -> & Hended).
           exists w', shown, (Some id). split_and!; [done| |done].
           apply (deploy_ended_trans _ w w1); [done|].
           by apply (deploy_ended_trans _ w1 w2).
      * destruct (deploy_and_go_ended n id w1) as (w' & shown & -> & Hended).
        exists w', shown, (Some id). split_and!; [done| |done].
        by apply (deploy_ended_trans _ w w1).
    + destruct (deploy_failed_ended None
                  (ETypeError "Cannot read properties of undefined (reading 'id')")
                  w1) as (w' & shown & -> & Hended).
      exists w', shown, None. split_and!; [done| |done].
      by apply (deploy_ended_trans _ w w1).
  - change (workspaceApi_create (S (S n)) workspaceName selectedModel w
            = Some (Rejected error, w1)) in Hcreate.
    rewrite Hcreate.
    destruct (deploy_failed_ended None error w1) as (w' & shown & -> & Hended).
    exists w', shown, None. split_and!; [done| |done].
    by apply (deploy_ended_trans _ w w1).
Qed.

(** X20. [handleDeploy] always comes to an end, and in the same shape: the
    loading flag is set first and reset last, and in between there is either
    the one destructive toast "Deployment failed" or the toast "Deployment
    started!" followed by one route to the new workspace: the creation was
    answered, and the route is the dashboard page of the [id] in that
    answer.  Every request it caused, the refreshes of the client included,
    is a POST: a workspace that was created is not taken back when a later
    step fails. *)
Theorem handleDeploy_ends n (workspaceName selectedModel : string)
    (selectedChannels : list string) (telegramToken : string) w :
  ∃ w' shown,
    handleDeploy (S (S n)) workspaceName selectedModel selectedChannels
      telegramToken w = Some (w', shown) ∧
    (∃ evs, log w' = log w ++ evs ∧
            ∀ via req, Sent via req ∈ evs → w_method req = "post") ∧
    ∃ between,
      shown = SetIsLoading true :: between ++ [SetIsLoading false] ∧
      ((∃ description, between = [Toast true "Deployment failed" description]) ∨
       (∃ resp w1 id,
          workspaceApi_create (S (S n)) workspaceName selectedModel w
          = Some (Resolved resp, w1) ∧
          workspace_id (body resp) = Some id ∧
          between = [Toast false "Deployment started!"
                       "Your AI assistant is being deployed.";
                     Push ("/dashboard/workspaces/" +:+ to_string id)])).
Proof.
  destruct (handleDeploy_run n workspaceName selectedModel selectedChannels
              telegramToken w)
    as (w' & shown & created & Hrun & [Hposts (between & Hshown & Hbetween)]
        & Hcreated).
  exists w', shown. split_and!; [done|done|].
  exists between. split; [done|].
  destruct Hbetween as [Hfailed|(id & -> & Hgo)]; [by left|right].
  destruct (Hcreated id eq_refl) as (resp & w1 & Hcreate & Hid).
  by exists resp, w1, id.
Qed.

End Client.

(** ** The properties at work on concrete runs *)

Lemma request_hook_bearer_witness :
  headers (onRequest {| accessToken := Str "tok"; refreshToken := Null |} get_me)
    !! "Authorization" = Some "Bearer tok" ∧
  onRequest {| accessToken := Null; refreshToken := Null |} get_me = get_me.
Proof.
  split.
  - exact (proj1 (request_hook_bearer
                    {| accessToken := Str "tok"; refreshToken := Null |} get_me)).
  - exact (request_hook_bearer
             {| accessToken := Null; refreshToken := Null |} get_me).
Defined.

Lemma refresh_then_replay_witness :
  first_401 unauthorized (in_flight (Str "stale") (Str "rt") tt) 0 sent_get_me ∧
  ∃ w',
    onRejected localhost unit (backend "good" "rt")
        (api localhost unit (backend "good" "rt") 1)
        unauthorized (in_flight (Str "stale") (Str "rt") tt)
      = Some (Resolved {| status := 200; body := Text "ok" |}, w') ∧
    accessToken (auth w') = Str "good" ∧
    bare_calls (log w') = 1 ∧ length (log w') = 3.
Proof.
  assert (H1 : first_401 unauthorized (in_flight (Str "stale") (Str "rt") tt)
                 0 sent_get_me) by (split_and!; reflexivity).
  split; [exact H1|].
  destruct (refresh_then_replay localhost unit (backend "good" "rt") 0
              unauthorized (in_flight (Str "stale") (Str "rt") tt) 0 sent_get_me
              tt {| status := 200; body := Object {[ "access" := Str "good" ]} |}
              (Str "good") tt (Some {| status := 200; body := Text "ok" |})
              H1 eq_refl)
    as (w' & Hrun & _ & Hlog & _ & _ & _ & Hacc & _);
    [vm_compute; reflexivity | reflexivity | reflexivity | vm_compute; reflexivity |].
  exists w'. split; [exact Hrun|]. split; [exact Hacc|].
  rewrite Hlog. split; reflexivity.
Defined.

(** C1 as it is worded asks for no more than a refresh token in the store.
    With one the backend does not accept, the 401 of [GET /auth/me/] is
    followed by the refresh request and the redirect, and by no replay. *)
Lemma refresh_then_replay_counterexample :
  first_401 unauthorized (in_flight (Str "stale") (Str "expired") tt) 0 sent_get_me ∧
  truthy (refreshToken (auth (in_flight (Str "stale") (Str "expired") tt))) = true ∧
  ¬ ∃ out w' replayed,
      onRejected localhost unit (backend "good" "rt")
          (api localhost unit (backend "good" "rt") 1)
          unauthorized (in_flight (Str "stale") (Str "expired") tt)
        = Some (out, w') ∧
      log w' = log (in_flight (Str "stale") (Str "expired") tt)
               ++ [Sent Bare (refresh_request localhost (Str "expired"));
                   Sent Client replayed].
Proof.
  split; [split_and!; reflexivity|]. split; [reflexivity|].
  intros (out & w' & replayed & Hrun & Hlog).
  vm_compute in Hrun. injection Hrun as _ <-. vm_compute in Hlog. discriminate.
Qed.

Lemma refresh_failure_logs_out_witness :
  first_401 unauthorized (in_flight (Str "stale") (Str "expired") tt) 0 sent_get_me ∧
  ∃ refreshError w',
    onRejected localhost unit (backend "good" "rt")
        (api localhost unit (backend "good" "rt") 1)
        unauthorized (in_flight (Str "stale") (Str "expired") tt)
      = Some (Rejected refreshError, w') ∧
    refreshError ≠ unauthorized ∧
    auth w' = {| accessToken := Null; refreshToken := Null |} ∧
    last (log w') = Some (Navigate "/login").
Proof.
  assert (H1 : first_401 unauthorized (in_flight (Str "stale") (Str "expired") tt)
                 0 sent_get_me) by (split_and!; reflexivity).
  split; [exact H1|].
  eexists.
  apply (refresh_failure_logs_out localhost unit (backend "good" "rt")
           (api localhost unit (backend "good" "rt") 1)
           unauthorized (in_flight (Str "stale") (Str "expired") tt) 0 sent_get_me
           _ H1).
  apply (fails_status localhost unit (backend "good" "rt")
           (in_flight (Str "stale") (Str "expired") tt)
           tt {| status := 401; body := NoBody |});
    [reflexivity | vm_compute; reflexivity | reflexivity].
Defined.

Lemma other_errors_pass_through_witness :
  let server_error :=
    EAxios {| config := Some 0;
              response := Some {| status := 500; body := Text "oops" |} |} in
  is_401 server_error = false ∧
  onRejected localhost unit (backend "good" "rt")
      (api localhost unit (backend "good" "rt") 1)
      server_error (in_flight (Str "stale") (Str "rt") tt)
    = Some (Rejected server_error, in_flight (Str "stale") (Str "rt") tt).
Proof.
  intros server_error. split; [reflexivity|].
  apply (other_errors_pass_through localhost unit (backend "good" "rt")).
  left. reflexivity.
Defined.

Lemma missing_config_type_error_witness :
  let orphan :=
    EAxios {| config := None;
              response := Some {| status := 401; body := NoBody |} |} in
  is_401 orphan = true ∧ config_of orphan = None ∧
  ∃ msg,
    onRejected localhost unit (backend "good" "rt")
        (api localhost unit (backend "good" "rt") 1)
        orphan (in_flight (Str "stale") (Str "rt") tt)
      = Some (Rejected (ETypeError msg), in_flight (Str "stale") (Str "rt") tt) ∧
    ETypeError msg ≠ orphan.
Proof.
  intros orphan. split; [reflexivity|]. split; [reflexivity|].
  exact (proj1 (missing_config_type_error localhost unit (backend "good" "rt")
                  (api localhost unit (backend "good" "rt") 1)
                  orphan (in_flight (Str "stale") (Str "rt") tt) eq_refl)
               eq_refl).
Defined.

Lemma no_refresh_token_logs_out_witness :
  first_401 unauthorized (in_flight (Str "stale") Null tt) 0 sent_get_me ∧
  truthy (refreshToken (auth (in_flight (Str "stale") Null tt))) = false ∧
  onRejected localhost unit (backend "good" "rt")
      (api localhost unit (backend "good" "rt") 1)
      unauthorized (in_flight (Str "stale") Null tt)
    = Some (Rejected (EError "No refresh token"),
            {| auth := {| accessToken := Null; refreshToken := Null |};
               heap := [set_retry sent_get_me];
               server := tt;
               log := [Sent Client (wire sent_get_me); Navigate "/login"] |}).
Proof.
  assert (H1 : first_401 unauthorized (in_flight (Str "stale") Null tt)
                 0 sent_get_me) by (split_and!; reflexivity).
  split; [exact H1|]. split; [reflexivity|].
  exact (no_refresh_token_logs_out localhost unit (backend "good" "rt")
           (api localhost unit (backend "good" "rt") 1)
           unauthorized (in_flight (Str "stale") Null tt) 0 sent_get_me
           H1 eq_refl).
Defined.

Lemma at_most_one_refresh_witness :
  first_401 unauthorized (in_flight (Str "stale") (Str "rt") tt) 0 sent_get_me ∧
  ∃ out w' evs,
    onRejected localhost unit (backend "good" "rt")
        (api localhost unit (backend "good" "rt") 1)
        unauthorized (in_flight (Str "stale") (Str "rt") tt) = Some (out, w') ∧
    log w' = log (in_flight (Str "stale") (Str "rt") tt) ++ evs ∧
    bare_calls evs ≤ 1 ∧
    onRejected localhost unit (backend "good" "rt")
        (api localhost unit (backend "good" "rt") 1) unauthorized w'
      = Some (Rejected unauthorized, w').
Proof.
  assert (H1 : first_401 unauthorized (in_flight (Str "stale") (Str "rt") tt)
                 0 sent_get_me) by (split_and!; reflexivity).
  split; [exact H1|].
  destruct (at_most_one_refresh localhost unit (backend "good" "rt") 0
              unauthorized (in_flight (Str "stale") (Str "rt") tt) 0 sent_get_me H1)
    as (_ & _ & _ & _ & (out & w' & evs & Hrun & Hlog & Hcalls & _ & Hlater) & _).
  exists out, w', evs. split; [exact Hrun|]. split; [exact Hlog|].
  split; [exact Hcalls|]. apply Hlater. reflexivity.
Defined.

Lemma refresh_keeps_refresh_token_witness :
  first_401 unauthorized (in_flight (Str "stale") (Str "rt") tt) 0 sent_get_me ∧
  ∃ out w',
    onRejected localhost unit (backend "good" "rt")
        (api localhost unit (backend "good" "rt") 1)
        unauthorized (in_flight (Str "stale") (Str "rt") tt) = Some (out, w') ∧
    auth w' = {| accessToken := Str "good"; refreshToken := Str "rt" |}.
Proof.
  assert (H1 : first_401 unauthorized (in_flight (Str "stale") (Str "rt") tt)
                 0 sent_get_me) by (split_and!; reflexivity).
  split; [exact H1|].
  destruct (refresh_keeps_refresh_token localhost unit (backend "good" "rt") 0
              unauthorized (in_flight (Str "stale") (Str "rt") tt) 0 sent_get_me
              tt {| status := 200; body := Object {[ "access" := Str "good" ]} |}
              (Str "good") H1 eq_refl)
    as (out & w' & Hrun & Hauth & _);
    [vm_compute; reflexivity | reflexivity | reflexivity |].
  exists out, w'. split; [exact Hrun | exact Hauth].
Defined.

Lemma refresh_paths_witness :
  first_401 unauthorized (in_flight (Str "stale") (Str "rt") tt) 0 sent_get_me ∧
  ∃ req e2 w2,
    authApi_refresh localhost unit rejecting 2 "rt"
        (in_flight (Str "stale") (Str "rt") tt) = Some (Rejected e2, w2) ∧
    log w2 = [Sent Client (wire sent_get_me);
              Sent Client req;
              Sent Bare (refresh_request localhost (Str "rt"));
              Navigate "/login"] ∧
    w_headers req !! "Authorization" = Some "Bearer stale" ∧
    w_headers (refresh_request localhost (Str "rt")) !! "Authorization" = None.
Proof.
  assert (H1 : first_401 unauthorized (in_flight (Str "stale") (Str "rt") tt)
                 0 sent_get_me) by (split_and!; reflexivity).
  split; [exact H1|].
  destruct (refresh_paths localhost unit rejecting 0 unauthorized
              (in_flight (Str "stale") (Str "rt") tt) 0 sent_get_me "rt")
    as (Hbare & _ & (req & e2 & w2 & Hrun & Hlog & _ & _ & _ & Hhdr));
    [ intros srv req _; eexists; split; reflexivity
    | reflexivity | reflexivity | exact H1 | ].
  exists req, e2, w2. split; [exact Hrun|]. split; [exact Hlog|].
  split; [exact Hhdr | exact Hbare].
Defined.


(** ** The adapter on concrete inputs *)

(** One slash joins the base and a path, whatever slashes they bring; an
    absolute URL and a protocol-relative one are left alone. *)
Example buildFullPath_samples :
  let base := Some "http://localhost:8000/api" in
  buildFullPath base "/auth/me/" = "http://localhost:8000/api/auth/me/" ∧
  buildFullPath base "auth/me/" = "http://localhost:8000/api/auth/me/" ∧
  buildFullPath (Some "http://localhost:8000/api/") "//auth/me/"
    = "//auth/me/" ∧
  buildFullPath (Some "http://localhost:8000/api//") "/auth/me/"
    = "http://localhost:8000/api/auth/me/" ∧
  buildFullPath base "https://example.com/hook" = "https://example.com/hook" ∧
  buildFullPath base "HTTPS://example.com/hook" = "HTTPS://example.com/hook" ∧
  buildFullPath base "//cdn.example.com/x" = "//cdn.example.com/x" ∧
  buildFullPath base "" = "http://localhost:8000/api" ∧
  buildFullPath None "/auth/me/" = "/auth/me/".
Proof. vm_compute. done. Qed.

(** However the name is spelled, one [Authorization] header goes out. *)
Example normalize_samples :
  normalize {[ "authorization" := "Basic abc"; "Authorization" := "Bearer t";
               "Content-Type" := "application/json" ]}
  = {[ "Content-Type" := "application/json"; "Authorization" := "Bearer t" ]} ∧
  normalize {[ "AUTHORIZATION" := "Basic abc" ]}
  = {[ "Authorization" := "Basic abc" ]} ∧
  normalize {[ "Content-Type" := "application/json" ]}
  = {[ "Content-Type" := "application/json" ]}.
Proof. vm_compute. done. Qed.

(** A request for an absolute URL goes to that URL, not under the base. *)
Example absolute_url_dispatch :
  let run := api localhost unit (backend "good" "rt") 2
               (get_config "https://example.com/hook")
               (fresh_world (Str "good") (Str "rt") tt) in
  (map (λ ev, match ev with Sent _ req => w_url req | Navigate h => h end)
     ∘ log ∘ snd) <$> run
  = Some ["https://example.com/hook"].
Proof. vm_compute. done. Qed.

(** ** The scenarios of the specification, run from dispatch to settlement *)

(** A valid access token: the request succeeds without a 401 on the way. *)
Example valid_token_no_roundtrip :
  let run := api localhost unit (backend "good" "rt") 2 get_me
               (fresh_world (Str "good") (Str "rt") tt) in
  fst <$> run = Some (Resolved {| status := 200; body := Text "ok" |}) ∧
  (length ∘ log ∘ snd) <$> run = Some 1 ∧
  (bare_calls ∘ log ∘ snd) <$> run = Some 0.
Proof. vm_compute. done. Qed.

(** An expired access token: 401, refresh, replay, and the caller sees only
    the 200. *)
Example expired_access_token_recovers :
  let run := api localhost unit (backend "good" "rt") 2 get_me
               (fresh_world (Str "stale") (Str "rt") tt) in
  fst <$> run = Some (Resolved {| status := 200; body := Text "ok" |}) ∧
  (auth ∘ snd) <$> run
    = Some {| accessToken := Str "good"; refreshToken := Str "rt" |} ∧
  (length ∘ log ∘ snd) <$> run = Some 3 ∧
  (bare_calls ∘ log ∘ snd) <$> run = Some 1.
Proof. vm_compute. done. Qed.

(** Both tokens invalid: the refresh is answered 401, the session is cleared,
    the page is redirected, and the caller gets the error of the refresh
    (whose config is the second object on the heap), not that of its own
    request. *)
Example both_tokens_invalid_logs_out :
  let run := api localhost unit (backend "good" "rt") 2 get_me
               (fresh_world (Str "stale") (Str "expired") tt) in
  fst <$> run
    = Some (Rejected (EAxios {| config := Some 1;
                                response := Some {| status := 401; body := NoBody |} |})) ∧
  (auth ∘ snd) <$> run = Some {| accessToken := Null; refreshToken := Null |} ∧
  (last ∘ log ∘ snd) <$> run = Some (Some (Navigate "/login")) ∧
  (length ∘ log ∘ snd) <$> run = Some 3.
Proof. vm_compute. done. Qed.

(** The network goes down after the first answer: the refresh fails without
    a response, with the same end. *)
Example network_down_during_refresh :
  let run := api localhost _ scripted 2 get_me
               (fresh_world (Str "stale") (Str "rt")
                  [Some {| status := 401; body := NoBody |}]) in
  fst <$> run
    = Some (Rejected (EAxios {| config := Some 1; response := None |})) ∧
  (auth ∘ snd) <$> run = Some {| accessToken := Null; refreshToken := Null |} ∧
  (last ∘ log ∘ snd) <$> run = Some (Some (Navigate "/login")).
Proof. vm_compute. done. Qed.

(** A replay that is answered 401 again is not refreshed a second time, and
    does not log out either: the caller gets the 401 of the replay. *)
Example replay_401_is_final :
  let run := api localhost _ scripted 3 get_me
               (fresh_world (Str "stale") (Str "rt")
                  [Some {| status := 401; body := NoBody |};
                   Some {| status := 200; body := Object {[ "access" := Str "new" ]} |};
                   Some {| status := 401; body := NoBody |};
                   Some {| status := 200; body := Text "never asked for" |}]) in
  fst <$> run
    = Some (Rejected (EAxios {| config := Some 2;
                                response := Some {| status := 401; body := NoBody |} |})) ∧
  (auth ∘ snd) <$> run
    = Some {| accessToken := Str "new"; refreshToken := Str "rt" |} ∧
  (length ∘ log ∘ snd) <$> run = Some 3 ∧
  (bare_calls ∘ log ∘ snd) <$> run = Some 1.
Proof. vm_compute. done. Qed.

(** ** The client and the layout on concrete runs *)

Lemma first_answer_decides_witness :
  let down := fresh_world (Str "good") (Str "rt")
                [Some {| status := 500; body := Text "oops" |}] in
  ∃ w',
    api localhost _ scripted 1 get_me down
      = Some (Rejected (EAxios {| config := Some 0;
                                  response := Some {| status := 500;
                                                      body := Text "oops" |} |}),
              w') ∧
    auth w' = auth down ∧ length (log w') = 1.
Proof.
  intros down. eexists. split.
  - apply (first_answer_decides localhost _ scripted 0 get_me down []
             (Some {| status := 500; body := Text "oops" |}) eq_refl).
    intros resp [= <-]. discriminate.
  - split; reflexivity.
Defined.

Lemma anonymous_401_is_replaced_witness :
  ∃ w',
    authApi_login localhost unit rejecting 1 "ann@example.com" "wrong"
      (fresh_world Null Null tt)
      = Some (Rejected (EError "No refresh token"), w') ∧
    length (log w') = 2 ∧ last (log w') = Some (Navigate "/login").
Proof.
  eexists. split.
  - apply (anonymous_401_is_replaced localhost unit rejecting 0
             (post_config "/auth/login/"
                (Object {[ "email" := Str "ann@example.com";
                           "password" := Str "wrong" ]}) ∅)
             (fresh_world Null Null tt) tt
             {| status := 401; body := NoBody |});
      reflexivity.
  - split; reflexivity.
Defined.

Lemma dispatch_recovers_witness :
  ∃ w',
    api localhost unit (backend "good" "rt") 2 get_me
      (fresh_world (Str "stale") (Str "rt") tt)
      = Some (Resolved {| status := 200; body := Text "ok" |}, w') ∧
    auth w' = {| accessToken := Str "good"; refreshToken := Str "rt" |} ∧
    length (log w') = 3.
Proof.
  eexists. split.
  - apply (dispatch_recovers localhost unit (backend "good" "rt") 0 get_me
             (fresh_world (Str "stale") (Str "rt") tt)
             tt {| status := 401; body := NoBody |}
             tt {| status := 200; body := Object {[ "access" := Str "good" ]} |}
             (Str "good") tt (Some {| status := 200; body := Text "ok" |}));
      first [reflexivity | vm_compute; reflexivity].
  - split; reflexivity.
Defined.

Lemma checkAuth_recovers_witness :
  ∃ w',
    checkAuth localhost unit (backend "good" "rt") 2 (Str "stale")
      (fresh_world (Str "stale") (Str "rt") tt) []
      = Some (w', [SetUser (Text "ok"); SetLoading false]) ∧
    auth w' = {| accessToken := Str "good"; refreshToken := Str "rt" |}.
Proof.
  destruct (checkAuth_recovers localhost unit (backend "good" "rt") 0 (Str "stale")
              (fresh_world (Str "stale") (Str "rt") tt) []
              tt {| status := 401; body := NoBody |}
              tt {| status := 200; body := Object {[ "access" := Str "good" ]} |}
              (Str "good") tt {| status := 200; body := Text "ok" |})
    as (w' & Hrun & Hauth & _);
    try first [reflexivity | vm_compute; reflexivity].
  exists w'. split; [exact Hrun | exact Hauth].
Defined.

(** The layout rendered without a token, and with one the backend turns
    down together with the refresh token. *)
Example checkAuth_without_token :
  checkAuth localhost unit (backend "good" "rt") 2 Null
    (fresh_world Null Null tt) []
  = Some (fresh_world Null Null tt, [RouterPush "/login"]).
Proof. reflexivity. Qed.

Example checkAuth_both_tokens_invalid :
  let run := checkAuth localhost unit (backend "good" "rt") 2 (Str "stale")
               (fresh_world (Str "stale") (Str "expired") tt) [] in
  snd <$> run = Some [RouterPush "/login"] ∧
  (auth ∘ fst) <$> run = Some {| accessToken := Null; refreshToken := Null |} ∧
  (last ∘ log ∘ fst) <$> run = Some (Some (Navigate "/login")).
Proof. vm_compute. done. Qed.

Lemma register_rejection_message_witness :
  let taken := {| status := 400;
                  body := Object {[ "email" := Str "already registered" ]} |} in
  ∃ error w',
    authApi_register localhost _ scripted 1 "ann@example.com" "secret123" "secret123"
      (fresh_world Null Null [Some taken]) = Some (Rejected error, w') ∧
    RegisterPage.errorMessage (RegisterPage.response_data error)
      = RegisterPage.One "already registered".
Proof.
  intros taken.
  destruct (register_rejection_message localhost _ scripted 0
              "ann@example.com" "secret123" "secret123"
              (fresh_world Null Null [Some taken]) [] taken)
    as (error & w' & Hrun & Herr & _); [reflexivity..|].
  exists error, w'. split; [exact Hrun|]. rewrite Herr. reflexivity.
Defined.

(** ** The message of a failed registration *)

Section RegisterPageProperties.
Import RegisterPage.

(** What [errorMessage] makes of a body of which no field before the
    [k]-th is given. *)
Lemma errorMessage_skip (d : ErrorBody) (k : nat) :
  (∀ j g, j < k → consulted d !! j = Some g → given g = false) →
  errorMessage (Some d) =
    match k with
    | 0 => errorMessage (Some d)
    | 1 => if given (password d) then joined (password d)
           else if given (password_confirm d) then first_of (password_confirm d)
           else if given (detail d) then detail d
           else if given (non_field_errors d) then first_of (non_field_errors d)
           else fallback
    | 2 => if given (password_confirm d) then first_of (password_confirm d)
           else if given (detail d) then detail d
           else if given (non_field_errors d) then first_of (non_field_errors d)
           else fallback
    | 3 => if given (detail d) then detail d
           else if given (non_field_errors d) then first_of (non_field_errors d)
           else fallback
    | 4 => if given (non_field_errors d) then first_of (non_field_errors d)
           else fallback
    | _ => fallback
    end.
Proof.
  intros H. unfold errorMessage.
  destruct k as [|k]; [done|]. rewrite (H 0 (email d)) by (done || lia).
  destruct k as [|k]; [done|]. rewrite (H 1 (password d)) by (done || lia).
  destruct k as [|k]; [done|]. rewrite (H 2 (password_confirm d)) by (done || lia).
  destruct k as [|k]; [done|]. rewrite (H 3 (detail d)) by (done || lia).
  destruct k as [|k]; [done|]. by rewrite (H 4 (non_field_errors d)) by (done || lia).
Qed.

(** X9. The fields are consulted in the order [email], [password],
    [password_confirm], [detail], [non_field_errors], and the first one that
    is given decides alone: two bodies that agree on it, and have nothing
    given before it, get the same message, whatever else they hold. *)
Theorem errorMessage_first_given (d d' : ErrorBody) (k : nat) (f : errfield) :
  consulted d !! k = Some f →
  consulted d' !! k = Some f →
  given f = true →
  (∀ j g, j < k → consulted d !! j = Some g → given g = false) →
  (∀ j g, j < k → consulted d' !! j = Some g → given g = false) →
  errorMessage (Some d) = errorMessage (Some d').
Proof.
  intros Hk Hk' Hf Hd Hd'.
  rewrite (errorMessage_skip d k Hd), (errorMessage_skip d' k Hd').
  do 5 (destruct k as [|k];
        [injection Hk as Hk; injection Hk' as Hk';
         unfold errorMessage; by rewrite Hk, Hk', Hf|]).
  done.
Qed.

(** X10. The message is the fallback when there is no body, or none of the
    five fields is given.  It is [undefined] only for an empty array in
    [email], [password_confirm] or [non_field_errors] that nothing given
    comes before; and it is an array only when [detail] is that array. *)
Theorem errorMessage_shape (d : ErrorBody) :
  errorMessage None = fallback ∧
  ((∀ f, f ∈ consulted d → given f = false) → errorMessage (Some d) = fallback) ∧
  (errorMessage (Some d) = NoField ↔
     email d = Many [] ∨
     (given (email d) = false ∧ given (password d) = false ∧
      password_confirm d = Many []) ∨
     (given (email d) = false ∧ given (password d) = false ∧
      given (password_confirm d) = false ∧ given (detail d) = false ∧
      non_field_errors d = Many [])) ∧
  (∀ l, errorMessage (Some d) = Many l → detail d = Many l).
Proof.
  split_and!.
  - done.
  - intros H. rewrite (errorMessage_skip d 5); [done|].
    intros j g _ Hj. apply H. by eapply list_elem_of_lookup_2.
  - unfold errorMessage, fallback.
    destruct d as [[|s1|[|? ?]] [|s2|l2] [|s3|[|? ?]] [|s4|l4] [|s5|[|? ?]]];
      cbn;
      repeat match goal with
             | |- context [bool_decide ?P] => destruct (bool_decide P)
             end;
      intuition congruence.
  - intros l. unfold errorMessage, fallback.
    destruct d as [[|s1|[|? ?]] [|s2|l2] [|s3|[|? ?]] [|s4|l4] [|s5|[|? ?]]];
      cbn;
      repeat match goal with
             | |- context [bool_decide ?P] => destruct (bool_decide P)
             end;
      intuition congruence.
Qed.

Lemma errorMessage_first_given_witness :
  errorMessage (Some {| email := Many ["taken"; "odd"]; password := One "short";
                        password_confirm := NoField; detail := NoField;
                        non_field_errors := NoField |})
  = errorMessage (Some {| email := Many ["taken"; "odd"]; password := NoField;
                          password_confirm := Many []; detail := One "no";
                          non_field_errors := Many ["x"] |}).
Proof.
  apply (errorMessage_first_given _ _ 0 (Many ["taken"; "odd"]));
    [reflexivity | reflexivity | reflexivity | | ]; intros j g Hj; lia.
Defined.

End RegisterPageProperties.

(** ** The workspace store *)

Lemma filter_all {A} (P : A → Prop) `{∀ x, Decision (P x)} (l : list A) :
  (∀ x, x ∈ l → P x) → filter P l = l.
Proof.
  induction l as [|x l IH]; intros Hall; [done|].
  rewrite filter_cons_True by (apply Hall; left).
  f_equal. apply IH. intros y Hy. apply Hall. by right.
Qed.

Section WorkspaceStoreProperties.
Import WorkspaceStore.
Context {V : Type}.
Implicit Types (state : WorkspaceState V) (w c : Workspace V).
Implicit Types (updates : Updates V) (i : Z).

Lemma merge_after w (u1 u2 : Updates V) :
  merge (merge w u1) u2 = merge w (after u2 u1).
Proof.
  unfold merge, after. simpl. f_equal.
  - by destruct (new_id u2).
  - by rewrite (assoc_L (∪)).
Qed.

(** X11. [removeWorkspace] takes out every workspace with the id and no
    other, keeps the rest in their order, and forgets the current workspace
    exactly when it has the id.  Removing an id that no workspace of a store
    with a listed current workspace has changes nothing. *)
Theorem removeWorkspace_removes i state :
  (∀ w, w ∈ workspaces (removeWorkspace i state)
        ↔ w ∈ workspaces state ∧ id w ≠ i) ∧
  workspaces (removeWorkspace i state) `sublist_of` workspaces state ∧
  (∀ c, currentWorkspace (removeWorkspace i state) = Some c
        ↔ currentWorkspace state = Some c ∧ id c ≠ i) ∧
  ((∀ w, w ∈ workspaces state → id w ≠ i) → listed state →
   removeWorkspace i state = state).
Proof.
  split_and!.
  - intros w. simpl. rewrite list_elem_of_filter. tauto.
  - apply sublist_filter.
  - intros c. simpl.
    destruct (currentWorkspace state) as [c'|]; [|split; [done|by intros [? _]]].
    case_bool_decide as Hc; split.
    + done.
    + by intros [[= ->] Hne].
    + by intros [= ->].
    + by intros [? _].
  - intros Hfresh Hlisted. destruct state as [ws cur l e].
    unfold removeWorkspace, listed in *. simpl in *.
    rewrite filter_all by done. f_equal.
    destruct cur as [c|]; [|done].
    rewrite bool_decide_eq_false_2; [done|]. apply Hfresh. by apply Hlisted.
Qed.

(** X12. If the current workspace is one of the list, it still is after a
    workspace is added, updated or removed: an update changes it together
    with its entry in the list, a removal of its entry clears it. *)
Theorem listed_preserved state :
  listed state →
  (∀ w, listed (addWorkspace w state)) ∧
  (∀ i updates, listed (updateWorkspace i updates state)) ∧
  (∀ i, listed (removeWorkspace i state)).
Proof.
  intros Hl. split_and!.
  - intros w c Hc. simpl in *. apply elem_of_app. left. by apply Hl.
  - intros i updates c Hc. simpl in *.
    destruct (currentWorkspace state) as [c'|] eqn:Hcur; [|done].
    specialize (Hl c' Hcur).
    apply (list_elem_of_fmap_2
             (λ w, if bool_decide (id w = i) then merge w updates else w)) in Hl.
    case_bool_decide; by injection Hc as <-.
  - intros i c Hc. simpl in *.
    destruct (currentWorkspace state) as [c'|] eqn:Hcur; [|done].
    case_bool_decide; [done|]. injection Hc as <-.
    apply list_elem_of_filter. split; [done|]. by apply Hl.
Qed.

(** X13. Adding a workspace under an id that is not in use and removing it
    again gives back the store as it was (the current workspace being
    listed). *)
Theorem add_then_remove w state :
  (∀ w', w' ∈ workspaces state → id w' ≠ id w) →
  listed state →
  removeWorkspace (id w) (addWorkspace w state) = state.
Proof.
  intros Hfresh Hlisted. destruct state as [ws cur l e].
  unfold removeWorkspace, addWorkspace, listed in *. simpl in *.
  rewrite filter_app, filter_all by done.
  rewrite filter_cons_False, filter_nil, app_nil_r by (intros Hne; by apply Hne).
  f_equal. destruct cur as [c|]; [|done].
  rewrite bool_decide_eq_false_2; [done|]. apply Hfresh. by apply Hlisted.
Qed.

(** X14. Two updates of the same workspace, the first of which leaves the
    id alone, are one update with the fields of both, those of the later one
    winning. *)
Theorem updateWorkspace_twice i (u1 u2 : Updates V) state :
  new_id u1 = None ∨ new_id u1 = Some i →
  updateWorkspace i u2 (updateWorkspace i u1 state)
  = updateWorkspace i (after u2 u1) state.
Proof.
  intros Hid.
  assert (Hstep : ∀ w,
    (if bool_decide (id (if bool_decide (id w = i) then merge w u1 else w) = i)
     then merge (if bool_decide (id w = i) then merge w u1 else w) u2
     else (if bool_decide (id w = i) then merge w u1 else w))
    = if bool_decide (id w = i) then merge w (after u2 u1) else w).
  { intros w. destruct (bool_decide (id w = i)) eqn:Hw.
    - apply bool_decide_eq_true in Hw.
      rewrite bool_decide_eq_true_2; [apply merge_after|].
      simpl. destruct Hid as [-> | ->]; done.
    - by rewrite Hw. }
  unfold updateWorkspace. simpl. f_equal.
  - rewrite <- list_fmap_compose. apply list_fmap_ext. intros k w _. apply Hstep.
  - destruct (currentWorkspace state) as [c|]; [|done].
    specialize (Hstep c). destruct (bool_decide (id c = i)); simpl.
    + rewrite <- Hstep. simpl. by destruct (bool_decide _).
    + destruct (bool_decide (id c = i)); [by rewrite Hstep|done].
Qed.

(** X15. An update that carries no id keeps the ids of the list, in their
    order; it changes no workspace with another id, and with no workspace of
    that id in the list it changes none at all: it never inserts. *)
Theorem updateWorkspace_keeps_ids i updates state :
  new_id updates = None →
  id <$> workspaces (updateWorkspace i updates state) = id <$> workspaces state ∧
  (∀ k w, workspaces state !! k = Some w → id w ≠ i →
          workspaces (updateWorkspace i updates state) !! k = Some w) ∧
  ((∀ w, w ∈ workspaces state → id w ≠ i) →
   workspaces (updateWorkspace i updates state) = workspaces state).
Proof.
  intros Hid. simpl. split_and!.
  - rewrite <- list_fmap_compose. apply list_fmap_ext. intros k w _. simpl.
    case_bool_decide; [|done]. unfold merge. simpl. by rewrite Hid.
  - intros k w Hk Hw. rewrite list_lookup_fmap, Hk. simpl.
    by rewrite bool_decide_eq_false_2.
  - intros Hnone. rewrite <- (list_fmap_id (workspaces state)) at 2.
    apply list_fmap_ext. intros k w Hk. simpl.
    rewrite bool_decide_eq_false_2; [done|].
    apply Hnone. by eapply list_elem_of_lookup_2.
Qed.

End WorkspaceStoreProperties.

(** ** Lists of choices *)

Section ChoicesProperties.
Import Choices.
Implicit Types (x y : string) (l keywords : list string).

Lemma filter_out_snoc x l :
  x ∉ l → filter (λ b, b ≠ x) (l ++ [x]) = l.
Proof.
  intros Hx. rewrite filter_app, filter_all.
  - rewrite filter_cons_False, filter_nil, app_nil_r; [done|]. by intros ?.
  - intros y Hy ->. done.
Qed.

Lemma filter_out_perm x l :
  NoDup l → x ∈ l → filter (λ b, b ≠ x) l ++ [x] ≡ₚ l.
Proof.
  induction 1 as [|y l Hy Hnd IH]; intros Hin; [by apply elem_of_nil in Hin|].
  destruct (decide (y = x)) as [->|Hne].
  - rewrite filter_cons_False by (by intros ?).
    rewrite filter_all by (intros z Hz ->; done).
    by rewrite Permutation_app_comm.
  - rewrite filter_cons_True by done. simpl. apply Permutation_skip.
    apply IH. apply elem_of_cons in Hin as [->|]; done.
Qed.

Lemma toggle_in x l : x ∈ l → toggle x l = filter (λ b, b ≠ x) l.
Proof. intros Hx. unfold toggle. by rewrite bool_decide_eq_true_2. Qed.

Lemma toggle_out x l : x ∉ l → toggle x l = l ++ [x].
Proof. intros Hx. unfold toggle. by rewrite bool_decide_eq_false_2. Qed.

(** X16. A click flips the choice and nothing else: afterwards the item is
    chosen exactly if it was not, every other item is chosen exactly if it
    was, and a list without repetition stays one. *)
Theorem toggle_flips x l :
  (x ∈ toggle x l ↔ x ∉ l) ∧
  (∀ y, y ≠ x → y ∈ toggle x l ↔ y ∈ l) ∧
  (NoDup l → NoDup (toggle x l)).
Proof.
  destruct (decide (x ∈ l)) as [Hx|Hx].
  - rewrite toggle_in by done. split_and!.
    + rewrite list_elem_of_filter. intuition.
    + intros y Hy. rewrite list_elem_of_filter. intuition.
    + apply NoDup_filter.
  - rewrite toggle_out by done. split_and!.
    + rewrite elem_of_app, list_elem_of_singleton. intuition.
    + intros y Hy. rewrite elem_of_app, list_elem_of_singleton. intuition.
    + intros Hnd. apply NoDup_app. split_and!; [done| |apply NoDup_singleton].
      intros y Hy ->%list_elem_of_singleton. done.
Qed.

(** X17. Two clicks on an item that was not chosen give back the list as it
    was.  Two clicks on a chosen item of a list without repetition give back
    the same choices, the item now last. *)
Theorem toggle_twice x l :
  (x ∉ l → toggle x (toggle x l) = l) ∧
  (NoDup l → x ∈ l →
   toggle x (toggle x l) = filter (λ b, b ≠ x) l ++ [x] ∧
   toggle x (toggle x l) ≡ₚ l).
Proof.
  split.
  - intros Hx. rewrite (toggle_out x l), toggle_in by
      (done || (apply elem_of_app; right; by apply list_elem_of_singleton)).
    by apply filter_out_snoc.
  - intros Hnd Hx.
    assert (Hout : x ∉ filter (λ b, b ≠ x) l).
    { rewrite list_elem_of_filter. by intros [Hne _]. }
    rewrite (toggle_in x l), toggle_out by done.
    split; [done|]. by apply filter_out_perm.
Qed.

Lemma addKeyword_adds (trim : string → string) keywords (newKeyword : string) :
  trim newKeyword ≠ "" → trim newKeyword ∉ keywords →
  addKeyword trim keywords newKeyword = (keywords ++ [trim newKeyword], "").
Proof.
  intros Hk Hin. unfold addKeyword.
  by rewrite (bool_decide_eq_true_2 _ Hk), (bool_decide_eq_false_2 _ Hin).
Qed.

Lemma addKeyword_skips (trim : string → string) keywords (newKeyword : string) :
  ¬ (trim newKeyword ≠ "" ∧ trim newKeyword ∉ keywords) →
  addKeyword trim keywords newKeyword = (keywords, newKeyword).
Proof.
  intros Hno. unfold addKeyword.
  destruct (bool_decide (trim newKeyword ≠ "")) eqn:Hk; [|done].
  destruct (bool_decide (trim newKeyword ∈ keywords)) eqn:Hin; [done|].
  apply bool_decide_eq_true in Hk. apply bool_decide_eq_false in Hin. tauto.
Qed.

(** X18. [addKeyword] appends the trimmed text and clears the input, or
    leaves both alone; it does the former exactly when the trimmed text is
    not empty and not yet in the list.  So a list without repetition and
    without the empty keyword stays one, and the cross next to the new
    keyword takes back the addition. *)
Theorem addKeyword_keeps_clean (trim : string → string) keywords (newKeyword : string) :
  let k := trim newKeyword in
  let added := addKeyword trim keywords newKeyword in
  (if bool_decide (k ≠ "" ∧ k ∉ keywords)
   then added = (keywords ++ [k], "")
   else added = (keywords, newKeyword)) ∧
  (NoDup keywords → NoDup added.1) ∧
  ("" ∉ keywords → "" ∉ added.1) ∧
  (k ≠ "" → k ∈ added.1) ∧
  (added.1 ≠ keywords → removeKeyword k added.1 = keywords).
Proof.
  intros k added. unfold added. case_bool_decide as Hadd.
  - destruct Hadd as [Hk Hin]. rewrite addKeyword_adds by done. fold k. simpl.
    split_and!; [done| | | |].
    + intros Hnd. apply NoDup_app. split_and!; [done| |apply NoDup_singleton].
      intros y Hy ->%list_elem_of_singleton. done.
    + rewrite elem_of_app, list_elem_of_singleton. by intros Hno [?|?].
    + intros _. apply elem_of_app. right. by apply list_elem_of_singleton.
    + intros _. by apply filter_out_snoc.
  - rewrite addKeyword_skips by done. simpl. split_and!; try done.
    intros Hk. destruct (decide (k ∈ keywords)); [done|]. by destruct Hadd.
Qed.

End ChoicesProperties.

(** ** The store and the choices on concrete data *)

Section StoreSamples.
Import WorkspaceStore.

Lemma two_workspaces_listed : listed two_workspaces.
Proof. intros c [= <-]. simpl. right. left. Qed.

Lemma two_workspaces_no_3 w : w ∈ workspaces two_workspaces → id w ≠ 3%Z.
Proof.
  simpl. intros Hw.
  repeat (apply elem_of_cons in Hw as [->|Hw]; [done|]).
  by apply elem_of_nil in Hw.
Qed.

Lemma listed_preserved_witness :
  listed two_workspaces ∧
  listed (updateWorkspace 2 (rename "retail") two_workspaces) ∧
  currentWorkspace (updateWorkspace 2 (rename "retail") two_workspaces)
    = Some (ws 2 "retail") ∧
  currentWorkspace (removeWorkspace 2 two_workspaces) = None.
Proof.
  split; [exact two_workspaces_listed|].
  split; [|split; reflexivity].
  exact (proj1 (proj2 (listed_preserved two_workspaces two_workspaces_listed))
           2%Z (rename "retail")).
Defined.

Lemma add_then_remove_witness :
  removeWorkspace 3 (addWorkspace (ws 3 "lab") two_workspaces) = two_workspaces.
Proof.
  exact (add_then_remove (ws 3 "lab") two_workspaces
           two_workspaces_no_3 two_workspaces_listed).
Defined.

Lemma updateWorkspace_twice_witness :
  updateWorkspace 2 (rename "retail")
    (updateWorkspace 2 (rename "shop") two_workspaces)
  = updateWorkspace 2 (rename "retail") two_workspaces.
Proof.
  rewrite (updateWorkspace_twice 2 (rename "shop") (rename "retail")
             two_workspaces (or_introl eq_refl)).
  reflexivity.
Defined.

Lemma updateWorkspace_keeps_ids_witness :
  id <$> workspaces (updateWorkspace 2 (rename "retail") two_workspaces)
    = [1%Z; 2%Z] ∧
  workspaces (updateWorkspace 3 (rename "lab") two_workspaces)
    = workspaces two_workspaces.
Proof.
  split.
  - exact (proj1 (updateWorkspace_keeps_ids 2 (rename "retail") two_workspaces
                    eq_refl)).
  - exact (proj2 (proj2 (updateWorkspace_keeps_ids 3 (rename "lab")
                           two_workspaces eq_refl))
             two_workspaces_no_3).
Defined.

(** An update may carry an id, and nothing keeps it from being one that is
    taken: the list then has two workspaces with the same id. *)
Example updateWorkspace_can_duplicate_ids :
  id <$> workspaces
           (updateWorkspace 2 {| new_id := Some 1%Z; new_fields := ∅ |}
              two_workspaces)
  = [1%Z; 1%Z].
Proof. reflexivity. Qed.

End StoreSamples.

Section ChoicesSamples.
Import Choices.

Example toggle_moves_to_the_end :
  toggle "indeed" (toggle "indeed" ["indeed"; "linkedin"]) = ["linkedin"; "indeed"].
Proof. reflexivity. Qed.

Example addKeyword_trims_and_dedupes :
  let trim s := if bool_decide (s = " rust ") then "rust" else s in
  addKeyword trim ["go"] " rust " = (["go"; "rust"], "") ∧
  addKeyword trim ["go"; "rust"] " rust " = (["go"; "rust"], " rust ") ∧
  addKeyword trim ["go"] "" = (["go"], "").
Proof. done. Qed.

End ChoicesSamples.

(** ** The onboarding page on concrete runs *)

(** The workspace is created, the deployment is refused: the toast shows the
    server's reason, and the two requests that went out are all there is. *)
Example handleDeploy_refused :
  let run := handleDeploy localhost _ scripted 2 "helper" "claude" ["telegram"] ""
               (fresh_world (Str "good") (Str "rt")
                  [Some {| status := 201; body := Object {[ "id" := Str "7" ]} |};
                   Some {| status := 500;
                           body := Object {[ "error" := Str "no capacity" ]} |}]) in
  snd <$> run = Some [SetIsLoading true;
                      Toast true "Deployment failed" "no capacity";
                      SetIsLoading false] ∧
  (map (λ ev, match ev with Sent _ req => w_url req | Navigate h => h end)
     ∘ log ∘ fst) <$> run
  = Some ["http://localhost:8000/api/workspaces/";
          "http://localhost:8000/api/workspaces/7/deploy/"].
Proof. vm_compute. done. Qed.

(** With Telegram chosen and a token given, three requests in this order. *)
Example handleDeploy_with_telegram :
  let run := handleDeploy localhost _ scripted 2 "helper" "claude" ["telegram"] "tok"
               (fresh_world (Str "good") (Str "rt")
                  [Some {| status := 201; body := Object {[ "id" := Str "7" ]} |};
                   Some {| status := 200; body := NoBody |};
                   Some {| status := 200; body := NoBody |}]) in
  snd <$> run = Some [SetIsLoading true;
                      Toast false "Deployment started!"
                        "Your AI assistant is being deployed.";
                      Push "/dashboard/workspaces/7";
                      SetIsLoading false] ∧
  (map (λ ev, match ev with Sent _ req => w_url req | Navigate h => h end)
     ∘ log ∘ fst) <$> run
  = Some ["http://localhost:8000/api/workspaces/";
          "http://localhost:8000/api/workspaces/7/channels/telegram/setup/";
          "http://localhost:8000/api/workspaces/7/deploy/"].
Proof. vm_compute. done. Qed.
